(** * yt-poject: a shallow embedding of [app.py]

    The Flask application of the repository exposes three handlers.  This
    development embeds the two that carry logic, [video_info] and
    [download], together with the helpers [is_valid_youtube_url] and
    [check_ffmpeg], and proves the properties that the specification
    states about them.

    Conventions of the embedding.
    - A Python [str] is a Rocq [string], one [ascii] per character.
    - Loosely typed values coming from the extraction engine are [pyval]s
      and the dictionaries that hold them are [gmap string pyval].
    - The file system is the finite set of paths that exist.
    - The outside world (the ffmpeg probe, [uuid4], the extraction engine,
      [os.remove], [send_file]) is a record of oracles, [env].
    - A handler returns its response, the [after_this_request] hooks it
      registered, the new file system and the trace of the external
      operations it performed.
    - A Python exception is a value of type [exn]; a computation that may
      raise has a result in [exn + A]. *)

From Stdlib Require Import ZArith QArith String Ascii List Bool Lia Lqa.
From Stdlib Require Import Permutation Sorted.
From stdpp Require Import base gmap strings list.

Open Scope string_scope.
Open Scope Z_scope.

(** ** Python values *)

Module Py.

(** The values a field of the engine's result can hold: [None], a
    boolean, an integer, a (finite) float, or a string. *)
Inductive pyval :=
| PyNone
| PyBool (b : bool)
| PyInt (n : Z)
| PyFloat (q : Q)
| PyStr (s : string).

(** Truth value testing, as [bool(v)]. *)
Definition truthy (v : pyval) : bool :=
  match v with
  | PyNone => false
  | PyBool b => b
  | PyInt n => negb (n =? 0)
  | PyFloat q => negb (Qeq_bool q 0)
  | PyStr s => negb (String.eqb s "")
  end.

(** [a or b]. *)
Definition py_or (a b : pyval) : pyval := if truthy a then a else b.

(** [v == s] and [v != s] for a string literal [s]. *)
Definition eq_str (v : pyval) (s : string) : bool :=
  match v with
  | PyStr t => String.eqb t s
  | _ => false
  end.

Definition ne_str (v : pyval) (s : string) : bool := negb (eq_str v s).

(** [v in (s1, ..., sn)] for a tuple of string literals. *)
Definition in_strs (v : pyval) (ss : list string) : bool := existsb (eq_str v) ss.

(** The numeric value of [v], when it has one ([bool] is a subclass of
    [int]).  Integers and finite floats compare by their exact values. *)
Definition number (v : pyval) : option Q :=
  match v with
  | PyBool b => Some (if b then 1%Q else 0%Q)
  | PyInt n => Some (inject_Z n)
  | PyFloat q => Some q
  | PyNone | PyStr _ => None
  end.

(** Unary minus, [-v]; a [TypeError] on [None] and on strings. *)
Definition neg (v : pyval) : option Q := option_map Qopp (number v).

(** [d.get(k)] on a dictionary: [None] when the key is absent. *)
Definition get (d : gmap string pyval) (k : string) : pyval :=
  match d !! k with
  | Some v => v
  | None => PyNone
  end.

(** [str.isspace] on one character (code points below 256). *)
Definition isspace (c : ascii) : bool :=
  let n := N_of_ascii c in
  ((9 <=? n) && (n <=? 13) || (28 <=? n) && (n <=? 32) || (n =? 133) || (n =? 160))%N.

(** [s.lstrip(chars)] with the set of characters given as a predicate. *)
Fixpoint lstrip_by (p : ascii -> bool) (s : string) : string :=
  match s with
  | EmptyString => EmptyString
  | String c s' => if p c then lstrip_by p s' else s
  end.

Fixpoint rstrip_by (p : ascii -> bool) (s : string) : string :=
  match s with
  | EmptyString => EmptyString
  | String c s' =>
      match rstrip_by p s' with
      | EmptyString => if p c then EmptyString else String c EmptyString
      | r => String c r
      end
  end.

(** [s.strip()]. *)
Definition strip (s : string) : string := rstrip_by isspace (lstrip_by isspace s).

(** [s.lstrip(".")]. *)
Definition lstrip_dots (s : string) : string := lstrip_by (Ascii.eqb ".") s.

(** [s.rfind(c)] for a single character: the highest index, or -1. *)
Fixpoint rfind_from (c : ascii) (s : string) (i : Z) : Z :=
  match s with
  | EmptyString => -1
  | String a s' =>
      let r := rfind_from c s' (i + 1) in
      if 0 <=? r then r else if Ascii.eqb a c then i else -1
  end.

Definition rfind (c : ascii) (s : string) : Z := rfind_from c s 0.

(** The slices [s[:i]] and [s[i:]] for [0 <= i]. *)
Definition slice_to (s : string) (i : Z) : string := substring 0 (Z.to_nat i) s.
Definition slice_from (s : string) (i : Z) : string :=
  substring (Z.to_nat i) (String.length s - Z.to_nat i) s.

(** [s[i:i+1]], the empty string when out of range. *)
Definition char_at (s : string) (i : Z) : string := substring (Z.to_nat i) 1 s.

End Py.

Import Py.

(** ** Regular expressions: the fragment of [re] used by the source *)

Module Re.

Local Open Scope list_scope.

Inductive regex :=
| Void                          (* matches nothing *)
| Eps                           (* the empty pattern *)
| Lit (c : ascii)               (* a literal character *)
| AnyChar                       (* [.]: any character except newline *)
| NoneOf (cs : list ascii)      (* a negated class [[^...]] *)
| Seq (r1 r2 : regex)
| Alt (r1 r2 : regex)
| Star (r : regex).

Definition newline : ascii := "010"%char.

(** [(r)?], [r+], [r{n}], a literal string, and n-ary sequence and
    alternation. *)
Definition Opt (r : regex) : regex := Alt r Eps.
Definition Plus (r : regex) : regex := Seq r (Star r).

Fixpoint Rep (n : nat) (r : regex) : regex :=
  match n with
  | O => Eps
  | S n' => Seq r (Rep n' r)
  end.

Fixpoint Str (s : string) : regex :=
  match s with
  | EmptyString => Eps
  | String c s' => Seq (Lit c) (Str s')
  end.

Definition seqs (rs : list regex) : regex := fold_right Seq Eps rs.
Definition alts (rs : list regex) : regex := fold_right Alt Void rs.

(** Does one character belong to a single-character pattern? *)
Definition class_mem (cs : list ascii) (c : ascii) : bool := existsb (Ascii.eqb c) cs.

Fixpoint nullable (r : regex) : bool :=
  match r with
  | Void | Lit _ | AnyChar | NoneOf _ => false
  | Eps | Star _ => true
  | Seq a b => nullable a && nullable b
  | Alt a b => nullable a || nullable b
  end.

(** The residual of [r] after reading [c]. *)
Fixpoint deriv (c : ascii) (r : regex) : regex :=
  match r with
  | Void | Eps => Void
  | Lit a => if Ascii.eqb a c then Eps else Void
  | AnyChar => if Ascii.eqb c newline then Void else Eps
  | NoneOf cs => if class_mem cs c then Void else Eps
  | Seq a b =>
      if nullable a then Alt (Seq (deriv c a) b) (deriv c b)
      else Seq (deriv c a) b
  | Alt a b => Alt (deriv c a) (deriv c b)
  | Star a => Seq (deriv c a) (Star a)
  end.

(** [bool(pattern.match(s))]: [match] is anchored at the start of the
    string only, so it succeeds as soon as some prefix of [s] is matched
    by the pattern. *)
Fixpoint match_prefix (r : regex) (s : list ascii) : bool :=
  nullable r ||
  match s with
  | [] => false
  | c :: s' => match_prefix (deriv c r) s'
  end.

Definition matches (r : regex) (s : string) : bool :=
  match_prefix r (list_ascii_of_string s).

(** [re.sub(pattern, repl, s)] for a pattern that is one character
    class: every character of the class is replaced by [repl]. *)
Fixpoint sub_class (cs : list ascii) (repl : string) (s : string) : string :=
  match s with
  | EmptyString => EmptyString
  | String c s' =>
      if class_mem cs c then (repl ++ sub_class cs repl s')%string
      else String c (sub_class cs repl s')
  end.

(** Exact matching, by iterated residuals. *)
Definition accepts (r : regex) (w : list ascii) : bool :=
  nullable (fold_left (fun r c => deriv c r) w r).

(** The words of a pattern, as a predicate. *)
Inductive star (L : list ascii -> Prop) : list ascii -> Prop :=
| star_nil : star L []
| star_app u v : L u -> star L v -> star L (u ++ v).

Fixpoint Lang (r : regex) (w : list ascii) : Prop :=
  match r with
  | Void => False
  | Eps => w = []
  | Lit c => w = [c]
  | AnyChar => exists c, w = [c] /\ c <> newline
  | NoneOf cs => exists c, w = [c] /\ class_mem cs c = false
  | Seq a b => exists u v, w = u ++ v /\ Lang a u /\ Lang b v
  | Alt a b => Lang a w \/ Lang b w
  | Star a => star (Lang a) w
  end.

End Re.

Import Re.

(** ** [app.py], lines 17-24: the URL validator *)

Definition YOUTUBE_REGEX : regex :=
  seqs
    [ Opt (seqs [Str "http"; Opt (Lit "s"); Str "://"]);
      Opt (Str "www.");
      alts [Str "youtube"; Str "youtu"; Str "youtube-nocookie"];
      Lit ".";
      alts [Str "com"; Str "be"];
      Lit "/";
      Opt (alts [Str "watch?v="; Str "embed/"; Str "v/"; Str "shorts/";
                 Seq (Plus AnyChar) (Str "?v=")]);
      Rep 11 (NoneOf ["&"; "="; "%"; "?"]%char) ].

(** The rendering [str(e)] of an exception. *)
Definition exn : Type := string.

(** [bool(YOUTUBE_REGEX.match(url or ""))]; [match] raises a [TypeError]
    when its argument is not a string. *)
Definition is_valid_youtube_url (url : pyval) : exn + bool :=
  match py_or url (PyStr "") with
  | PyStr s => inr (matches YOUTUBE_REGEX s)
  | _ => inl "expected string or bytes-like object"
  end.

(** ** The part of [os.path] (POSIX flavour) that the source calls *)

Module OsPath.

(** [s.endswith("/")]. *)
Fixpoint ends_with_sep (s : string) : bool :=
  match s with
  | EmptyString => false
  | String c EmptyString => Ascii.eqb c "/"
  | String _ s' => ends_with_sep s'
  end.

(** [os.path.join(a, b)]. *)
Definition join (a b : string) : string :=
  if String.prefix "/" b then b
  else if String.eqb a "" || ends_with_sep a then a ++ b
  else a ++ "/" ++ b.

(** The loop of [genericpath._splitext] that skips the leading dots of
    the file name; [n] bounds the remaining iterations,
    [dotIndex - filenameIndex]. *)
Fixpoint splitext_loop (p : string) (dotIndex : Z) (n : nat) (filenameIndex : Z)
  : string * string :=
  match n with
  | O => (p, "")
  | S n' =>
      if negb (String.eqb (char_at p filenameIndex) ".")
      then (slice_to p dotIndex, slice_from p dotIndex)
      else splitext_loop p dotIndex n' (filenameIndex + 1)
  end.

(** [os.path.splitext(p)]. *)
Definition splitext (p : string) : string * string :=
  let sepIndex := rfind "/" p in
  let dotIndex := rfind "." p in
  if sepIndex <? dotIndex
  then splitext_loop p dotIndex (Z.to_nat (dotIndex - (sepIndex + 1))) (sepIndex + 1)
  else (p, "").

End OsPath.

(** ** The world around the handlers *)

(** What [subprocess.run(argv, check=True)] can do: fail to launch the
    program, or run it to an exit code. *)
Inductive proc_result :=
| ProcNotFound
| ProcExit (code : Z).

(** The dictionary returned by [extract_info]: scalar fields, and the two
    list-valued entries that the source reads, each of them absent
    ([None] here) or a list of dictionaries.  A result whose [formats]
    entry is present with another value, [None] included, is not a value
    of this type: on it line 59 raises, and the statements below say
    nothing about it. *)
Record info := {
  info_fields : gmap string pyval;
  info_formats : option (list (gmap string pyval));
  info_thumbnails : option (list (gmap string pyval));
}.

(** A function registered with [after_this_request]; the only one in the
    source is the closure [remove_file], which captures [final_path]. *)
Inductive hook :=
| RemoveFile (final_path : string).

Inductive event :=
| EvSubprocess (argv : list string) (r : proc_result)
| EvUuid (hex : string)
| EvExtract (ydl_opts : gmap string pyval) (url : string) (download : bool)
| EvPrepareFilename
| EvExists (path : string) (r : bool)
| EvRemove (path : string)
| EvSendFile (path : string) (download_name : string)
| EvPrint (msg : string).

Record env := {
  (** [os.path.join(os.path.dirname(__file__), "downloads")] *)
  DOWNLOAD_FOLDER : string;
  (** the outcome of running [ffmpeg -version] *)
  ffmpeg_run : proc_result;
  (** [uuid.uuid4().hex] *)
  uuid4_hex : string;
  (** [YoutubeDL(opts).extract_info(url, download=...)], with the
      construction and the closing of the [YoutubeDL] object: it returns
      or raises, and leaves the file system in some state *)
  extract_info_result :
    gmap string pyval -> string -> bool -> gset string -> (exn + info) * gset string;
  (** [ydl.prepare_filename(info)] *)
  prepare_filename_result : gmap string pyval -> info -> exn + string;
  (** the exception, if any, that [os.remove] raises on an existing path *)
  os_remove_error : string -> option exn;
  (** the exception, if any, that [send_file] raises *)
  send_file_error : string -> option exn;
}.

Record state := {
  files : gset string;
  trace : list event;
  hooks : list hook;
}.

Definition init (fs : gset string) : state :=
  {| files := fs; trace := []; hooks := [] |}.

Definition log (ev : event) (st : state) : state :=
  {| files := files st; trace := trace st ++ [ev]; hooks := hooks st |}.

(** *** A state and exception monad for the handlers *)

Definition M (A : Type) : Type := state -> (exn + A) * state.

Definition ret {A} (a : A) : M A := fun st => (inr a, st).

Definition raise {A} (e : exn) : M A := fun st => (inl e, st).

Definition bind {A B} (m : M A) (k : A -> M B) : M B :=
  fun st =>
    match m st with
    | (inl e, st') => (inl e, st')
    | (inr a, st') => k a st'
    end.

(** [try: m  except Exception as e: h e]. *)
Definition try_except {A} (m : M A) (h : exn -> M A) : M A :=
  fun st =>
    match m st with
    | (inl e, st') => h e st'
    | (inr a, st') => (inr a, st')
    end.

Notation "x <- m ;; k" := (bind m (fun x => k))
  (at level 100, m at next level, right associativity).
Notation "m ;;; k" := (bind m (fun _ => k))
  (at level 100, right associativity).

(** *** Responses *)

(** One retained format: the dictionary [fmt] built by [video_info], a
    record because its set of keys is fixed. *)
Record fmt := {
  format_id : pyval;
  ext : pyval;
  filesize : pyval;
  height : pyval;
  width : pyval;
  fps : pyval;
  vcodec : pyval;
  acodec : pyval;
  format_note : pyval;
  abr : pyval;
  tbr : pyval;
  asr : pyval;
  protocol : pyval;
  container : pyval;
  progressive : bool;
  audio_only : bool;
  video_only : bool;
  quality_label : pyval;
}.

(** The JSON object that [video_info] returns on success. *)
Record video_metadata := {
  meta_id : pyval;
  meta_title : pyval;
  meta_duration : pyval;
  meta_uploader : pyval;
  meta_thumbnail : pyval;
  meta_formats : list fmt;
  meta_original_url : string;
}.

(** The result of [send_file(path, as_attachment=True, download_name=...)]. *)
Inductive response_file :=
| Attachment (path : string) (download_name : string).

Inductive response :=
| JsonError (msg : string) (status : Z)      (* jsonify({"error": msg}), status *)
| JsonInfo (m : video_metadata)              (* jsonify({...}), status 200 *)
| JsonStatusOk                               (* jsonify({"status": "ok"}) *)
| SendFile (f : response_file).

(** *** The external operations *)

Definition ffmpeg_argv : list string := ["ffmpeg"; "-version"].

Definition subprocess_run_check (E : env) : M unit :=
  fun st =>
    let st' := log (EvSubprocess ffmpeg_argv (ffmpeg_run E)) st in
    match ffmpeg_run E with
    | ProcNotFound => (inl "[Errno 2] No such file or directory: 'ffmpeg'", st')
    | ProcExit code =>
        if code =? 0 then (inr tt, st')
        else (inl "Command '['ffmpeg', '-version']' returned non-zero exit status", st')
    end.

Definition uuid4 (E : env) : M string :=
  fun st => (inr (uuid4_hex E), log (EvUuid (uuid4_hex E)) st).

Definition extract_info (E : env) (ydl_opts : gmap string pyval) (url : string)
    (download : bool) : M info :=
  fun st =>
    let '(r, fs) := extract_info_result E ydl_opts url download (files st) in
    (r, {| files := fs;
           trace := trace st ++ [EvExtract ydl_opts url download];
           hooks := hooks st |}).

Definition prepare_filename (E : env) (ydl_opts : gmap string pyval) (i : info)
  : M string :=
  fun st => (prepare_filename_result E ydl_opts i, log EvPrepareFilename st).

Definition os_path_exists (p : string) : M bool :=
  fun st =>
    let r := bool_decide (p ∈ files st) in
    (inr r, log (EvExists p r) st).

Definition os_remove (E : env) (p : string) : M unit :=
  fun st =>
    let st' := log (EvRemove p) st in
    if bool_decide (p ∈ files st) then
      match os_remove_error E p with
      | Some e => (inl e, st')
      | None => (inr tt, {| files := files st ∖ {[p]}; trace := trace st'; hooks := hooks st' |})
      end
    else (inl "[Errno 2] No such file or directory", st').

Definition print (msg : string) : M unit :=
  fun st => (inr tt, log (EvPrint msg) st).

Definition after_this_request (h : hook) : M unit :=
  fun st => (inr tt, {| files := files st; trace := trace st; hooks := hooks st ++ [h] |}).

Definition send_file (E : env) (path download_name : string) : M response_file :=
  fun st =>
    let st' := log (EvSendFile path download_name) st in
    match send_file_error E path with
    | Some e => (inl e, st')
    | None => (inr (Attachment path download_name), st')
    end.

(** ** [app.py], lines 26-32: the ffmpeg probe *)

Definition check_ffmpeg (E : env) : M bool :=
  try_except
    (subprocess_run_check E ;;; ret true)
    (fun _ => ret false).

(** ** [app.py], lines 38-102: metadata *)

(** [request.args.get(k, "")]. *)
Definition args_get (args : gmap string string) (k : string) : string :=
  match args !! k with
  | Some v => v
  | None => ""
  end.

(** [bool(s)] for a string. *)
Definition nonempty (s : string) : bool := negb (String.eqb s "").

Definition info_ydl_opts : gmap string pyval :=
  list_to_map
    [ ("quiet", PyBool true);
      ("no_warnings", PyBool true);
      ("skip_download", PyBool true);
      ("geo_bypass", PyBool true);
      ("nocheckcertificate", PyBool true) ].

(** The dictionary literal of lines 60-79. *)
Definition make_fmt (f : gmap string pyval) : fmt :=
  {| format_id := get f "format_id";
     ext := get f "ext";
     filesize := py_or (get f "filesize") (get f "filesize_approx");
     height := get f "height";
     width := get f "width";
     fps := get f "fps";
     vcodec := get f "vcodec";
     acodec := get f "acodec";
     format_note := get f "format_note";
     abr := get f "abr";
     tbr := get f "tbr";
     asr := get f "asr";
     protocol := get f "protocol";
     container := get f "container";
     progressive := ne_str (get f "vcodec") "none" && ne_str (get f "acodec") "none";
     audio_only := eq_str (get f "vcodec") "none" && ne_str (get f "acodec") "none";
     video_only := ne_str (get f "vcodec") "none" && eq_str (get f "acodec") "none";
     quality_label := py_or (py_or (get f "format") (get f "format_note")) (get f "quality");
  |}.

Definition allowed_exts : list string := ["mp4"; "webm"; "m4a"; "mp3"; "opus"].

(** The loop of lines 58-81. *)
Fixpoint collect_formats (raw : list (gmap string pyval)) : list fmt :=
  match raw with
  | [] => []
  | f :: rest =>
      let fmt := make_fmt f in
      if in_strs (ext fmt) allowed_exts
      then fmt :: collect_formats rest
      else collect_formats rest
  end.

(** The tuples returned by [sort_key]: an integer and two numbers. *)
Definition key : Type := Z * Q * Q.

(** [sort_key], lines 84-88.  The unary minus raises a [TypeError] on a
    non-empty string. *)
Definition sort_key (f : fmt) : exn + key :=
  let group := if progressive f then 0 else (if video_only f then 1 else 2) in
  let height := py_or (height f) (PyInt 0) in
  let abr := py_or (abr f) (PyInt 0) in
  match neg height, neg abr with
  | Some h, Some a => inr (group, h, a)
  | _, _ => inl "bad operand type for unary -: 'str'"
  end.

(** [<] and [==] on numbers and on the key tuples, as Python compares
    them: position by position, the first difference decides. *)
Definition Qlt_bool (x y : Q) : bool :=
  match Qcompare x y with
  | Lt => true
  | _ => false
  end.

Definition key_lt (k1 k2 : key) : bool :=
  let '(g1, h1, a1) := k1 in
  let '(g2, h2, a2) := k2 in
  if negb (g1 =? g2) then g1 <? g2
  else if negb (Qeq_bool h1 h2) then Qlt_bool h1 h2
  else if negb (Qeq_bool a1 a2) then Qlt_bool a1 a2
  else false.

Definition key_eq (k1 k2 : key) : bool :=
  let '(g1, h1, a1) := k1 in
  let '(g2, h2, a2) := k2 in
  (g1 =? g2) && Qeq_bool h1 h2 && Qeq_bool a1 a2.

(** [list.sort(key=...)] first computes the key of every element, in
    order, and then sorts the decorated list with [<] on the keys.  The
    sort is stable; insertion from the right, which moves an element
    past the strictly smaller ones only, is one such sort. *)
Fixpoint decorate {A} (k : A -> exn + key) (l : list A) : exn + list (key * A) :=
  match l with
  | [] => inr []
  | x :: l' =>
      match k x with
      | inl e => inl e
      | inr kx =>
          match decorate k l' with
          | inl e => inl e
          | inr d => inr ((kx, x) :: d)
          end
      end
  end.

Fixpoint insert_stable {A} (x : key * A) (l : list (key * A)) : list (key * A) :=
  match l with
  | [] => [x]
  | y :: l' => if key_lt (fst y) (fst x) then y :: insert_stable x l' else x :: l
  end.

Fixpoint sort_decorated {A} (l : list (key * A)) : list (key * A) :=
  match l with
  | [] => []
  | x :: l' => insert_stable x (sort_decorated l')
  end.

Definition list_sort {A} (k : A -> exn + key) (l : list A) : exn + list A :=
  match decorate k l with
  | inl e => inl e
  | inr d => inr (map snd (sort_decorated d))
  end.

(** [formats.sort(key=sort_key)], line 90. *)
Definition sort_formats (formats : list fmt) : exn + list fmt :=
  list_sort sort_key formats.

(** Lift a pure computation that may raise. *)
Definition lift {A} (r : exn + A) : M A := fun st => (r, st).

(** [(thumbnails or [{}])[-1].get("url")]. *)
Definition last_thumbnail_url (thumbnails : option (list (gmap string pyval))) : pyval :=
  match thumbnails with
  | None | Some [] => get ∅ "url"
  | Some (t :: ts) => get (List.last ts t) "url"
  end.

Definition video_info (E : env) (args : gmap string string) : M response :=
  let url := strip (args_get args "url") in
  if negb (nonempty url) then ret (JsonError "No URL provided" 400)
  else
    valid <- lift (is_valid_youtube_url (PyStr url)) ;;
    if negb valid then ret (JsonError "Invalid YouTube URL" 400)
    else
    let ydl_opts := info_ydl_opts in
    try_except
      (i <- extract_info E ydl_opts url false ;;
       let raw := match info_formats i with Some l => l | None => [] end in
       formats <- lift (sort_formats (collect_formats raw)) ;;
       ret (JsonInfo
              {| meta_id := get (info_fields i) "id";
                 meta_title := get (info_fields i) "title";
                 meta_duration := get (info_fields i) "duration";
                 meta_uploader := get (info_fields i) "uploader";
                 meta_thumbnail :=
                   py_or (get (info_fields i) "thumbnail")
                         (last_thumbnail_url (info_thumbnails i));
                 meta_formats := formats;
                 meta_original_url := url |}))
      (fun e => ret (JsonError ("Failed to fetch video info: " ++ e) 500)).

(** ** [app.py], lines 104-165: download *)

Definition download_ydl_opts (outtmpl format_spec : string) : gmap string pyval :=
  list_to_map
    [ ("outtmpl", PyStr outtmpl);
      ("format", PyStr format_spec);
      ("quiet", PyBool true);
      ("no_warnings", PyBool true);
      ("merge_output_format", PyStr "mp4");
      ("geo_bypass", PyBool true);
      ("nocheckcertificate", PyBool true);
      ("retries", PyInt 3);
      ("fragment_retries", PyInt 3) ].

(** The name of the type of a value, as error messages print it. *)
Definition type_name (v : pyval) : string :=
  match v with
  | PyNone => "NoneType"
  | PyBool _ => "bool"
  | PyInt _ => "int"
  | PyFloat _ => "float"
  | PyStr _ => "str"
  end.

(** [v.strip()]: an [AttributeError] unless [v] is a string. *)
Definition str_strip (v : pyval) : exn + string :=
  match v with
  | PyStr s => inr (strip s)
  | _ => inl ("'" ++ type_name v ++ "' object has no attribute 'strip'")
  end.

(** The class of the pattern of line 149: backslash, slash, star,
    question mark, colon, double quote, angle brackets and bar. *)
Definition unsafe_chars : list ascii :=
  ["\"; "/"; "*"; "?"; ":"; "034"; "<"; ">"; "|"]%char.

(** Line 115. *)
Definition format_spec_of (format_id : string) : string :=
  if nonempty format_id then format_id else "bestvideo+bestaudio/best".

(** Line 148-150. *)
Definition safe_title_of (title : string) : string := sub_class unsafe_chars "_" title.

Definition ext_of (final_path : string) : string :=
  let e := lstrip_dots (snd (OsPath.splitext final_path)) in
  if nonempty e then e else "mp4".

(** [remove_file], lines 153-160. *)
Definition remove_file (E : env) (final_path : string) (resp : response) : M response :=
  try_except
    (b <- os_path_exists final_path ;;
     if b then os_remove E final_path else ret tt)
    (fun e => print ("Cleanup error: " ++ e)) ;;;
  ret resp.

(** The message of line 118; its warning sign is kept in UTF-8. *)
Definition ffmpeg_missing_msg : string :=
  "⚠️ ffmpeg is not installed or not in PATH. Please install ffmpeg.".

Definition download (E : env) (args : gmap string string) : M response :=
  let url := strip (args_get args "url") in
  let format_id := strip (args_get args "format_id") in
  if negb (nonempty url) then ret (JsonError "No URL provided" 400)
  else
    valid <- lift (is_valid_youtube_url (PyStr url)) ;;
    if negb valid then ret (JsonError "Invalid YouTube URL" 400)
    else
    let format_spec := format_spec_of format_id in
    ffmpeg <- check_ffmpeg E ;;
    if negb ffmpeg then ret (JsonError ffmpeg_missing_msg 500)
    else
    uid <- uuid4 E ;;
    let outtmpl := OsPath.join (DOWNLOAD_FOLDER E) (uid ++ ".%(ext)s") in
    let ydl_opts := download_ydl_opts outtmpl format_spec in
    try_except
      (i <- extract_info E ydl_opts url true ;;
       final_path <- prepare_filename E ydl_opts i ;;
       found <- os_path_exists final_path ;;
       final_path <-
         (if negb found then
            let alt := fst (OsPath.splitext final_path) ++ ".mp4" in
            found_alt <- os_path_exists alt ;;
            ret (if found_alt then alt else final_path)
          else ret final_path) ;;
       found <- os_path_exists final_path ;;
       if negb found then ret (JsonError "File not found after download" 500)
       else
       title <- lift (str_strip (py_or (get (info_fields i) "title") (PyStr "video"))) ;;
       let safe_title := safe_title_of title in
       let ext := ext_of final_path in
       after_this_request (RemoveFile final_path) ;;;
       f <- send_file E final_path (safe_title ++ "." ++ ext) ;;
       ret (SendFile f))
      (fun e => ret (JsonError ("Download failed: " ++ e) 500)).

(** [health], lines 167-169. *)
Definition health : M response := ret JsonStatusOk.

(** ** The request cycle of the framework

    The view function runs first; the functions it registered with
    [after_this_request] are then called, in order of registration, on
    the response it returned.  Only after that is the response handed to
    the server for transmission. *)

Definition run_hook (E : env) (h : hook) (r : response) : M response :=
  match h with
  | RemoveFile final_path => remove_file E final_path r
  end.

Fixpoint run_hooks (E : env) (hs : list hook) (r : response) : M response :=
  match hs with
  | [] => ret r
  | h :: hs' => r' <- run_hook E h r ;; run_hooks E hs' r'
  end.

Definition handle_request (E : env) (view : M response) (fs : gset string)
  : (exn + response) * state :=
  match view (init fs) with
  | (inl e, st) => (inl e, st)
  | (inr r, st) => run_hooks E (hooks st) r st
  end.

(** ** The shape of an accepted URL, as the specification words it *)

Definition chars (s : string) : list ascii := list_ascii_of_string s.

(** One of the recognised beginnings: optional scheme, optional [www.],
    a video host and a top-level domain, then a slash. *)
Definition host_prefix (s : string) : Prop :=
  exists scheme www host tld,
    s = scheme ++ www ++ host ++ "." ++ tld ++ "/" /\
    In scheme [""; "http://"; "https://"] /\
    In www [""; "www."] /\
    In host ["youtube"; "youtu"; "youtube-nocookie"] /\
    In tld ["com"; "be"].

(** The optional path prefix: nothing (short link), one of the four
    fixed prefixes, or any non-empty text on one line followed by
    [?v=]. *)
Definition path_shape (s : string) : Prop :=
  In s [""; "watch?v="; "embed/"; "v/"; "shorts/"] \/
  exists t, t <> "" /\ Forall (fun c => c <> newline) (chars t) /\ s = t ++ "?v=".

Definition is_delimiter (c : ascii) : bool := class_mem ["&"; "="; "%"; "?"]%char c.

(** [n] characters, none of them a delimiter. *)
Definition token (n : nat) (s : string) : Prop :=
  String.length s = n /\ Forall (fun c => is_delimiter c = false) (chars s).

(** The string begins with an accepted prefix, an optional path shape
    and eleven token characters; anything may follow. *)
Definition url_shape (url : string) : Prop :=
  exists pre shape tok rest,
    url = pre ++ shape ++ tok ++ rest /\
    host_prefix pre /\ path_shape shape /\ token 11 tok.

(** ** Vocabulary for the statements about the sort *)

(** On decorated lists: [x] may stand before [y], and [x] has key [k]. *)
Definition dle {A} (x y : key * A) : Prop := key_lt (fst y) (fst x) = false.

Definition same_key {A} (k : key) (x : key * A) : bool := key_eq (fst x) k.

(** Every pair of a decorated list holds an element and its key. *)
Definition paired {A} (kf : A -> exn + key) (d : list (key * A)) : Prop :=
  Forall (fun p => kf (snd p) = inr (fst p)) d.

(** The order of the composite key in the words of the specification:
    the group first, then the second component, then the third. *)
Definition key_le_lex (k1 k2 : key) : Prop :=
  let '(g1, h1, a1) := k1 in
  let '(g2, h2, a2) := k2 in
  g1 < g2 \/ (g1 = g2 /\ (h1 < h2 \/ (h1 == h2 /\ a1 <= a2)))%Q.

(** The same on the elements, through the key function. *)
Definition le_by {A} (kf : A -> exn + key) (a b : A) : Prop :=
  exists ka kb, kf a = inr ka /\ kf b = inr kb /\ key_le_lex ka kb.

Definition has_key_by {A} (kf : A -> exn + key) (k : key) (a : A) : bool :=
  match kf a with
  | inr ka => key_eq ka k
  | inl _ => false
  end.

(** A value on which the unary minus of [sort_key] raises. *)
Definition is_text (v : pyval) : bool :=
  match v with
  | PyStr s => nonempty s
  | _ => false
  end.

(** How many of the three classifiers of a format are true. *)
Definition classifiers_true (f : fmt) : nat :=
  (Nat.b2n (progressive f) + Nat.b2n (video_only f) + Nat.b2n (audio_only f))%nat.


(** Both codecs of a format are the string ["none"]. *)
Definition no_codec (f : fmt) : bool := eq_str (vcodec f) "none" && eq_str (acodec f) "none".

(** ** Vocabulary for the statements about a download job *)

(** The URL and the options that [download] passes to the engine. *)
Definition job_url (args : gmap string string) : string := strip (args_get args "url").

Definition job_outtmpl (E : env) : string :=
  OsPath.join (DOWNLOAD_FOLDER E) (uuid4_hex E ++ ".%(ext)s").

Definition job_opts (E : env) (args : gmap string string) : gmap string pyval :=
  download_ydl_opts (job_outtmpl E) (format_spec_of (strip (args_get args "format_id"))).

(** The request passes the two URL checks and the ffmpeg probe. *)
Definition reaches_extraction (E : env) (args : gmap string string) : Prop :=
  nonempty (job_url args) = true /\
  matches YOUTUBE_REGEX (job_url args) = true /\
  ffmpeg_run E = ProcExit 0.

(** The fallback path of line 141, and the path that lines 140-143
    settle on in a file system [fs]. *)
Definition alt_path (final_path : string) : string :=
  fst (OsPath.splitext final_path) ++ ".mp4".

Definition resolved_path (fs : gset string) (final_path : string) : string :=
  if bool_decide (final_path ∈ fs) then final_path
  else if bool_decide (alt_path final_path ∈ fs) then alt_path final_path
  else final_path.

(** The title after the default and the trimming of line 148. *)
Definition job_title (i : info) : exn + string :=
  str_strip (py_or (get (info_fields i) "title") (PyStr "video")).

(** The operations of a job up to the resolution of its file, when the
    engine has returned and reported [final_path]. *)
Definition resolution_trace (E : env) (args : gmap string string) (fs : gset string)
    (final_path : string) : list event :=
  [ EvSubprocess ffmpeg_argv (ProcExit 0);
    EvUuid (uuid4_hex E);
    EvExtract (job_opts E args) (job_url args) true;
    EvPrepareFilename;
    EvExists final_path (bool_decide (final_path ∈ fs)) ] ++
  (if bool_decide (final_path ∈ fs) then []
   else [EvExists (alt_path final_path) (bool_decide (alt_path final_path ∈ fs))]) ++
  [ EvExists (resolved_path fs final_path)
             (bool_decide (resolved_path fs final_path ∈ fs)) ].

(** The replacement of one character as the specification words it:
    an underscore for each of the nine characters, itself otherwise. *)
Definition replace_unsafe (c : ascii) : ascii :=
  if bool_decide (c ∈ unsafe_chars) then "_"%char else c.

(** Readings of a trace: the paths probed with [os.path.exists], the
    number of calls of the engine, the job identifiers drawn, and the
    outcome of the ffmpeg probe when it is the first operation. *)
Fixpoint probed_paths (t : list event) : list string :=
  match t with
  | [] => []
  | EvExists p _ :: t' => p :: probed_paths t'
  | _ :: t' => probed_paths t'
  end.

Fixpoint extractions (t : list event) : list (gmap string pyval * string * bool) :=
  match t with
  | [] => []
  | EvExtract o u d :: t' => (o, u, d) :: extractions t'
  | _ :: t' => extractions t'
  end.

Fixpoint identifiers (t : list event) : list string :=
  match t with
  | [] => []
  | EvUuid h :: t' => h :: identifiers t'
  | _ :: t' => identifiers t'
  end.

Definition probe_outcome (t : list event) : option proc_result :=
  match t with
  | EvSubprocess _ r :: _ => Some r
  | _ => None
  end.


(** ** Sample worlds, for the concrete instances of the statements *)

Definition sample_url : string := "https://www.youtube.com/watch?v=dQw4w9WgXcQ".

Definition sample_args : gmap string string := {[ "url" := sample_url ]}.

(** A world in which the engine returns [i] and creates the files
    [created], and [prepare_filename] reports [reported]. *)
Definition sample_env (probe : proc_result) (i : info) (created : gset string)
    (reported : string) (remove_err send_err : option exn) : env :=
  {| DOWNLOAD_FOLDER := "/srv/app/downloads";
     ffmpeg_run := probe;
     uuid4_hex := "9f1c2ab4e0d34c5f8a6b7c8d9e0f1a2b";
     extract_info_result := fun _ _ _ fs => (inr i, fs ∪ created);
     prepare_filename_result := fun _ _ => inr reported;
     os_remove_error := fun _ => remove_err;
     send_file_error := fun _ => send_err |}.

Definition sample_info (title : pyval) (formats : list (gmap string pyval)) : info :=
  {| info_fields := {[ "id" := PyStr "dQw4w9WgXcQ"; "title" := title ]};
     info_formats := Some formats;
     info_thumbnails := None |}.

Definition raw_progressive : gmap string pyval :=
  {[ "format_id" := PyStr "18"; "ext" := PyStr "mp4"; "height" := PyInt 360;
     "vcodec" := PyStr "avc1.42001E"; "acodec" := PyStr "mp4a.40.2";
     "abr" := PyFloat (96 # 1) ]}.

Definition raw_video_720 : gmap string pyval :=
  {[ "format_id" := PyStr "136"; "ext" := PyStr "mp4"; "height" := PyInt 720;
     "vcodec" := PyStr "avc1.4d401f"; "acodec" := PyStr "none" ]}.

Definition raw_video_1080 : gmap string pyval :=
  {[ "format_id" := PyStr "248"; "ext" := PyStr "webm"; "height" := PyInt 1080;
     "vcodec" := PyStr "vp9"; "acodec" := PyStr "none" ]}.

Definition raw_audio : gmap string pyval :=
  {[ "format_id" := PyStr "251"; "ext" := PyStr "webm";
     "vcodec" := PyStr "none"; "acodec" := PyStr "opus";
     "abr" := PyFloat (129478 # 1000) ]}.

(** An entry in an allowed container that carries neither stream. *)
Definition raw_no_codec : gmap string pyval :=
  {[ "format_id" := PyStr "sb0"; "ext" := PyStr "mp4";
     "vcodec" := PyStr "none"; "acodec" := PyStr "none" ]}.

Definition raw_storyboard : gmap string pyval :=
  {[ "format_id" := PyStr "sb1"; "ext" := PyStr "mhtml";
     "vcodec" := PyStr "none"; "acodec" := PyStr "none" ]}.

Definition sample_raw : list (gmap string pyval) :=
  [raw_audio; raw_storyboard; raw_video_720; raw_progressive; raw_video_1080].


(** The file of the sample job with a given extension. *)
Definition sample_path (ext : string) : string :=
  "/srv/app/downloads/9f1c2ab4e0d34c5f8a6b7c8d9e0f1a2b." ++ ext.

(** A world in which the engine raises after it has written [created]. *)
Definition failing_env (e : exn) (created : gset string) : env :=
  {| DOWNLOAD_FOLDER := "/srv/app/downloads";
     ffmpeg_run := ProcExit 0;
     uuid4_hex := "9f1c2ab4e0d34c5f8a6b7c8d9e0f1a2b";
     extract_info_result := fun _ _ _ fs => (inl e, fs ∪ created);
     prepare_filename_result := fun _ _ => inl "";
     os_remove_error := fun _ => None;
     send_file_error := fun _ => None |}.

(** ** Vocabulary for the further properties of the handlers *)

(** Every character of [s] is whitespace. *)
Definition all_space (s : string) : Prop :=
  Forall (fun c => isspace c = true) (chars s).

(** The status code of a response: [jsonify] and [send_file] answer
    200 where the source gives no code. *)
Definition status (r : response) : Z :=
  match r with
  | JsonError _ code => code
  | JsonInfo _ | JsonStatusOk | SendFile _ => 200
  end.

(** The paths that a list of hooks is to remove. *)
Definition hook_paths (hs : list hook) : list string :=
  map (fun h => match h with RemoveFile p => p end) hs.

(** The [os.remove] calls of a trace. *)
Fixpoint removals (t : list event) : list string :=
  match t with
  | [] => []
  | EvRemove p :: t' => p :: removals t'
  | _ :: t' => removals t'
  end.

(** The [send_file] calls of a trace. *)
Fixpoint sends (t : list event) : list (string * string) :=
  match t with
  | [] => []
  | EvSendFile p n :: t' => (p, n) :: sends t'
  | _ :: t' => sends t'
  end.

(** The entries of the engine's format list, none when the key is
    absent, and the JSON object of lines 92-100 for a trimmed URL, the
    engine's result and the sorted formats. *)
Definition raw_formats (i : info) : list (gmap string pyval) :=
  match info_formats i with
  | Some l => l
  | None => []
  end.

Definition metadata_of (url : string) (i : info) (formats : list fmt) : video_metadata :=
  {| meta_id := get (info_fields i) "id";
     meta_title := get (info_fields i) "title";
     meta_duration := get (info_fields i) "duration";
     meta_uploader := get (info_fields i) "uploader";
     meta_thumbnail :=
       py_or (get (info_fields i) "thumbnail") (last_thumbnail_url (info_thumbnails i));
     meta_formats := formats;
     meta_original_url := url |}.

(** The text of the [TypeError] that [sort_key] raises. *)
Definition unary_minus_error : exn := "bad operand type for unary -: 'str'".

(** The first and the last character of a text, and a text without
    whitespace at either end. *)
Definition first_char (s : string) : option ascii :=
  match s with
  | String c _ => Some c
  | EmptyString => None
  end.

Fixpoint last_char (s : string) : option ascii :=
  match s with
  | EmptyString => None
  | String c EmptyString => Some c
  | String _ s' => last_char s'
  end.

Definition trimmed (s : string) : Prop :=
  (forall c, first_char s = Some c -> isspace c = false) /\
  (forall c, last_char s = Some c -> isspace c = false).

(** The recognised beginnings of [host_prefix], listed one by one. *)
Definition host_prefixes : list string :=
  flat_map
    (fun scheme =>
       flat_map
         (fun www =>
            flat_map
              (fun host =>
                 map (fun tld => scheme ++ www ++ host ++ "." ++ tld ++ "/") ["com"; "be"])
              ["youtube"; "youtu"; "youtube-nocookie"])
         [""; "www."])
    [""; "http://"; "https://"].

(** * Properties *)

(** ** The matcher agrees with the words of the pattern *)

Section RegexFacts.

Local Open Scope list_scope.

Lemma nullable_Lang (r : regex) : nullable r = true <-> Lang r [].
Proof.
  induction r; simpl; try (split; [discriminate | ]).
  - tauto.
  - tauto.
  - intros H; discriminate H.
  - intros (c & H & _); discriminate H.
  - intros (c & H & _); discriminate H.
  - rewrite andb_true_iff, IHr1, IHr2. split.
    + intros [H1 H2]. exists [], []. auto.
    + intros (u & v & Huv & Hu & Hv).
      symmetry in Huv. apply app_eq_nil in Huv as [-> ->]. auto.
  - rewrite orb_true_iff, IHr1, IHr2. tauto.
  - split; [intros _; constructor | reflexivity].
Qed.

Lemma star_cons_inv (L : list ascii -> Prop) (c : ascii) (w x : list ascii) :
  star L x -> x = c :: w ->
  exists u v, w = u ++ v /\ L (c :: u) /\ star L v.
Proof.
  induction 1 as [ | u v Hu Hv IH]; intros Heq; [discriminate | ].
  destruct u as [ | a u'].
  - apply IH, Heq.
  - simpl in Heq. injection Heq as -> <-. exists u', v. auto.
Qed.

Lemma deriv_Lang (c : ascii) (r : regex) (w : list ascii) :
  Lang (deriv c r) w <-> Lang r (c :: w).
Proof.
  revert w. induction r; intros w; simpl.
  - tauto.
  - split; [tauto | discriminate].
  - destruct (Ascii.eqb_spec c0 c) as [-> | Hne]; simpl.
    + split; [intros -> | intros [= ->]]; reflexivity.
    + split; [tauto | intros [= ? ?]; congruence].
  - destruct (Ascii.eqb_spec c newline) as [-> | Hne]; simpl.
    + split; [tauto | intros (a & [= -> ->] & Ha); congruence].
    + split; [intros -> | intros (a & [= -> ->] & Ha)]; eauto.
  - destruct (class_mem cs c) eqn:Hc; simpl.
    + split; [tauto | intros (a & [= -> ->] & Ha); congruence].
    + split; [intros -> | intros (a & [= -> ->] & Ha)]; eauto.
  - assert (Hseq : Lang (Seq (deriv c r1) r2) w <->
                   exists u v, w = u ++ v /\ Lang r1 (c :: u) /\ Lang r2 v).
    { simpl. split; intros (u & v & -> & Hu & Hv); exists u, v;
        (split; [reflexivity | split; [apply IHr1, Hu | exact Hv]]). }
    destruct (nullable r1) eqn:Hn.
    + change (Lang (Seq (deriv c r1) r2) w \/ Lang (deriv c r2) w <->
              exists u v, c :: w = u ++ v /\ Lang r1 u /\ Lang r2 v).
      rewrite Hseq, IHr2. apply nullable_Lang in Hn. split.
      * intros [(u & v & -> & Hu & Hv) | H].
        -- exists (c :: u), v. auto.
        -- exists [], (c :: w). auto.
      * intros (u & v & Heq & Hu & Hv). destruct u as [ | a u'].
        -- right. simpl in Heq. subst v. exact Hv.
        -- left. simpl in Heq. injection Heq as <- ->. eauto.
    + rewrite Hseq. split.
      * intros (u & v & -> & Hu & Hv). exists (c :: u), v. auto.
      * intros (u & v & Heq & Hu & Hv). destruct u as [ | a u'].
        -- apply nullable_Lang in Hu. congruence.
        -- simpl in Heq. injection Heq as <- ->. eauto.
  - rewrite IHr1, IHr2. tauto.
  - split.
    + intros (u & v & -> & Hu & Hv). apply IHr in Hu.
      change (c :: u ++ v) with ((c :: u) ++ v). constructor; assumption.
    + intros H. destruct (star_cons_inv _ c w _ H eq_refl) as (u & v & -> & Hu & Hv).
      exists u, v. split; [reflexivity | split; [apply IHr, Hu | exact Hv]].
Qed.

(** [match] succeeds exactly when some prefix of the subject is a word
    of the pattern. *)
Lemma match_prefix_spec (r : regex) (s : list ascii) :
  match_prefix r s = true <-> exists p t, s = p ++ t /\ Lang r p.
Proof.
  revert r. induction s as [ | c s IH]; intros r; simpl.
  - rewrite orb_false_r, nullable_Lang. split.
    + intros H. exists [], []. auto.
    + intros (p & t & Heq & Hp). symmetry in Heq.
      apply app_eq_nil in Heq as [-> _]. exact Hp.
  - rewrite orb_true_iff, nullable_Lang, IH. split.
    + intros [H | (p & t & -> & Hp)].
      * exists [], (c :: s). auto.
      * exists (c :: p), t. split; [reflexivity | apply deriv_Lang, Hp].
    + intros (p & t & Heq & Hp). destruct p as [ | a p'].
      * left. exact Hp.
      * right. simpl in Heq. injection Heq as <- ->.
        exists p', t. split; [reflexivity | apply deriv_Lang, Hp].
Qed.

End RegexFacts.

(** ** The words of [YOUTUBE_REGEX] *)

Section UrlShape.

Local Open Scope list_scope.

Lemma chars_app (a b : string) : chars (a ++ b)%string = chars a ++ chars b.
Proof. induction a as [ | c a IH]; simpl; [reflexivity | now rewrite <- IH]. Qed.

Lemma chars_inj (a b : string) : chars a = chars b -> a = b.
Proof.
  intros H. rewrite <- (string_of_list_ascii_of_string a), <- (string_of_list_ascii_of_string b).
  unfold chars in H. now rewrite H.
Qed.

Lemma chars_of_list (w : list ascii) : chars (string_of_list_ascii w) = w.
Proof. apply list_ascii_of_string_of_list_ascii. Qed.

Lemma chars_length (s : string) : length (chars s) = String.length s.
Proof. induction s; simpl; congruence. Qed.

Lemma Lang_Str (s : string) (w : list ascii) : Lang (Str s) w <-> w = chars s.
Proof.
  revert w. induction s as [ | c s IH]; intros w; simpl; [tauto | ].
  split.
  - intros (u & v & -> & -> & Hv). apply IH in Hv. now subst v.
  - intros ->. exists [c], (chars s). split; [reflexivity | ]. split; [reflexivity | now apply IH].
Qed.

Lemma Lang_Rep_NoneOf (cs : list ascii) (n : nat) (w : list ascii) :
  Lang (Rep n (NoneOf cs)) w <->
  length w = n /\ Forall (fun c => class_mem cs c = false) w.
Proof.
  revert w. induction n as [ | n IH]; intros w; simpl.
  - split.
    + intros ->. split; [reflexivity | constructor].
    + intros [H _]. now destruct w.
  - split.
    + intros (u & v & -> & (c & -> & Hc) & Hv). apply IH in Hv as [Hlen Hall].
      simpl. split; [now rewrite Hlen | now constructor].
    + intros [Hlen Hall]. destruct w as [ | c w]; [discriminate | ].
      inversion Hall; subst. exists [c], w. split; [reflexivity | ].
      split; [eauto | ]. apply IH. split; [now injection Hlen | assumption].
Qed.

Lemma star_AnyChar (w : list ascii) :
  star (Lang AnyChar) w <-> Forall (fun c => c <> newline) w.
Proof.
  split.
  - induction 1 as [ | u v (c & -> & Hc) _ IH]; [constructor | now constructor].
  - induction 1 as [ | c w Hc _ IH]; [constructor | ].
    change (c :: w) with ([c] ++ w). constructor; [ | assumption].
    exists c. auto.
Qed.

Lemma Lang_Plus_AnyChar (w : list ascii) :
  Lang (Plus AnyChar) w <-> w <> [] /\ Forall (fun c => c <> newline) w.
Proof.
  unfold Plus. cbn [Lang]. split.
  - intros (u & v & -> & (c & -> & Hc) & Hv). apply star_AnyChar in Hv.
    split; [discriminate | now constructor].
  - intros [Hne Hall]. destruct w as [ | c w]; [congruence | ].
    inversion Hall; subst. exists [c], w. split; [reflexivity | ].
    split; [exists c; auto | now apply star_AnyChar].
Qed.

Lemma accepts_Lang (r : regex) (w : list ascii) : accepts r w = true <-> Lang r w.
Proof.
  unfold accepts. revert r. induction w as [ | c w IH]; intros r; simpl.
  - apply nullable_Lang.
  - rewrite IH. apply deriv_Lang.
Qed.

Ltac lang_cases :=
  repeat match goal with
         | H : exists _, _ |- _ => destruct H
         | H : _ /\ _ |- _ => destruct H
         | H : _ \/ _ |- _ => destruct H
         | H : False |- _ => destruct H
         | H : Lang (Str _) _ |- _ => apply Lang_Str in H
         | H : ?x = _ |- _ => is_var x; subst x
         end.


Ltac finite_word :=
  eexists; split; [symmetry; apply chars_of_list | simpl; tauto].

Ltac finite_lang :=
  split;
  [ unfold Opt, alts, seqs; cbn [Lang fold_right]; intros H; lang_cases; finite_word
  | let s := fresh "s" in let Hs := fresh "Hs" in
    intros (s & -> & Hs); apply accepts_Lang; simpl in Hs;
    repeat (destruct Hs as [<- | Hs]; [reflexivity | ]); destruct Hs ].

Lemma Lang_scheme (w : list ascii) :
  Lang (Opt (seqs [Str "http"; Opt (Lit "s"); Str "://"])) w <->
  exists s, w = chars s /\ In s [""; "http://"; "https://"]%string.
Proof. finite_lang. Qed.

Lemma Lang_www (w : list ascii) :
  Lang (Opt (Str "www.")) w <-> exists s, w = chars s /\ In s [""; "www."]%string.
Proof. finite_lang. Qed.

Lemma Lang_host (w : list ascii) :
  Lang (alts [Str "youtube"; Str "youtu"; Str "youtube-nocookie"]) w <->
  exists s, w = chars s /\ In s ["youtube"; "youtu"; "youtube-nocookie"]%string.
Proof. finite_lang. Qed.

Lemma Lang_tld (w : list ascii) :
  Lang (alts [Str "com"; Str "be"]) w <-> exists s, w = chars s /\ In s ["com"; "be"]%string.
Proof. finite_lang. Qed.

Lemma Lang_path_shape (w : list ascii) :
  Lang (Opt (alts [Str "watch?v="; Str "embed/"; Str "v/"; Str "shorts/";
                   Seq (Plus AnyChar) (Str "?v=")])) w <->
  exists s, w = chars s /\ path_shape s.
Proof.
  unfold Opt, alts. cbn [fold_right]. split.
  - intros [[H | [H | [H | [H | [H | []]]]]] | H];
      try (apply Lang_Str in H; subst w; eexists; split; [reflexivity | left; simpl; tauto]).
    + destruct H as (u & v & -> & Hu & Hv).
      apply Lang_Plus_AnyChar in Hu as [Hne Hall]. apply Lang_Str in Hv. subst v.
      exists (string_of_list_ascii u ++ "?v=")%string. split.
      * now rewrite chars_app, chars_of_list.
      * right. exists (string_of_list_ascii u). rewrite chars_of_list.
        split; [ | auto]. intros Heq. apply Hne.
        rewrite <- (chars_of_list u), Heq. reflexivity.
    + simpl in H. subst w. exists ""%string. split; [reflexivity | left; simpl; tauto].
  - intros (s & -> & [Hs | (t & Hne & Hall & ->)]).
    + apply accepts_Lang. simpl in Hs.
      repeat (destruct Hs as [<- | Hs]; [reflexivity | ]). destruct Hs.
    + left. do 4 right. left. exists (chars t), (chars "?v=").
      split; [apply chars_app | ]. split; [ | now apply Lang_Str].
      apply Lang_Plus_AnyChar. split; [ | assumption].
      intros Heq. apply Hne. apply chars_inj. now rewrite Heq.
Qed.

Lemma Lang_token (w : list ascii) :
  Lang (Rep 11 (NoneOf ["&"; "="; "%"; "?"]%char)) w <->
  exists s, w = chars s /\ token 11 s.
Proof.
  rewrite Lang_Rep_NoneOf. unfold token, is_delimiter. split.
  - intros [Hlen Hall]. exists (string_of_list_ascii w).
    rewrite chars_of_list, <- chars_length, chars_of_list. auto.
  - intros (s & -> & Hlen & Hall). now rewrite chars_length.
Qed.

Lemma Lang_seqs (rs : list regex) (w : list ascii) :
  Lang (seqs rs) w <-> exists ws, Forall2 Lang rs ws /\ w = concat ws.
Proof.
  revert w. induction rs as [ | r rs IH]; intros w; simpl.
  - split.
    + intros ->. exists []. split; [constructor | reflexivity].
    + intros (ws & Hws & ->). inversion Hws. reflexivity.
  - split.
    + intros (u & v & -> & Hu & Hv). apply IH in Hv as (ws & Hws & ->).
      exists (u :: ws). split; [now constructor | reflexivity].
    + intros (ws & Hws & ->). inversion Hws as [ | ? u ? vs Hu Hvs]; subst.
      exists u, (concat vs). split; [reflexivity | ]. split; [assumption | ].
      apply IH. eauto.
Qed.

Lemma Lang_YOUTUBE_REGEX (w : list ascii) :
  Lang YOUTUBE_REGEX w <->
  exists pre shape tok,
    w = chars (pre ++ shape ++ tok)%string /\
    host_prefix pre /\ path_shape shape /\ token 11 tok.
Proof.
  unfold YOUTUBE_REGEX. rewrite Lang_seqs. split.
  - intros (ws & Hws & ->).
    apply Forall2_cons_inv_l in Hws as (w1 & ws1 & H1 & Hws & ->).
    apply Forall2_cons_inv_l in Hws as (w2 & ws2 & H2 & Hws & ->).
    apply Forall2_cons_inv_l in Hws as (w3 & ws3 & H3 & Hws & ->).
    apply Forall2_cons_inv_l in Hws as (w4 & ws4 & H4 & Hws & ->).
    apply Forall2_cons_inv_l in Hws as (w5 & ws5 & H5 & Hws & ->).
    apply Forall2_cons_inv_l in Hws as (w6 & ws6 & H6 & Hws & ->).
    apply Forall2_cons_inv_l in Hws as (w7 & ws7 & H7 & Hws & ->).
    apply Forall2_cons_inv_l in Hws as (w8 & ws8 & H8 & Hws & ->).
    apply Forall2_nil_inv_l in Hws as ->.
    apply Lang_scheme in H1 as (scheme & -> & Hscheme).
    apply Lang_www in H2 as (www & -> & Hwww).
    apply Lang_host in H3 as (host & -> & Hhost).
    apply Lang_tld in H5 as (tld & -> & Htld).
    apply Lang_path_shape in H7 as (shape & -> & Hshape).
    apply Lang_token in H8 as (tok & -> & Htok).
    simpl in H4, H6. subst w4 w6.
    exists (scheme ++ www ++ host ++ "." ++ tld ++ "/")%string, shape, tok.
    split; [ | split; [ | auto]].
    + simpl. rewrite !chars_app, app_nil_r, <- !app_assoc. reflexivity.
    + unfold host_prefix. eauto 10.
  - intros (pre & shape & tok & -> & (scheme & www & host & tld & -> & Hs & Hw & Hh & Ht) & Hshape & Htok).
    exists [chars scheme; chars www; chars host; ["."%char]; chars tld; ["/"%char];
            chars shape; chars tok].
    split.
    + apply List.Forall2_cons; [apply Lang_scheme; eauto | ].
      apply List.Forall2_cons; [apply Lang_www; eauto | ].
      apply List.Forall2_cons; [apply Lang_host; eauto | ].
      apply List.Forall2_cons; [reflexivity | ].
      apply List.Forall2_cons; [apply Lang_tld; eauto | ].
      apply List.Forall2_cons; [reflexivity | ].
      apply List.Forall2_cons; [apply Lang_path_shape; eauto | ].
      apply List.Forall2_cons; [apply Lang_token; eauto | ].
      apply List.Forall2_nil.
    + simpl. rewrite !chars_app, app_nil_r, <- !app_assoc. reflexivity.
Qed.

End UrlShape.

(** ** The URL validator *)

Lemma is_valid_youtube_url_str (url : string) :
  is_valid_youtube_url (PyStr url) = inr (matches YOUTUBE_REGEX url).
Proof.
  unfold is_valid_youtube_url, py_or. simpl.
  destruct (String.eqb_spec url "") as [-> | _]; reflexivity.
Qed.

Lemma matches_url_shape (url : string) :
  matches YOUTUBE_REGEX url = true <-> url_shape url.
Proof.
  unfold matches. rewrite match_prefix_spec. split.
  - intros (p & t & Heq & Hp).
    apply Lang_YOUTUBE_REGEX in Hp as (pre & shape & tok & -> & Hpre & Hshape & Htok).
    exists pre, shape, tok, (string_of_list_ascii t). split; [ | auto].
    apply chars_inj. unfold chars at 1. rewrite Heq.
    rewrite !chars_app, chars_of_list, <- !app_assoc. reflexivity.
  - intros (pre & shape & tok & rest & -> & Hpre & Hshape & Htok).
    exists (chars (pre ++ shape ++ tok)), (chars rest). split.
    + fold (chars (pre ++ shape ++ tok ++ rest)).
      rewrite !chars_app, <- !app_assoc. reflexivity.
    + apply Lang_YOUTUBE_REGEX. eauto 10.
Qed.

(** A token of twelve characters is accepted, because nothing anchors
    the end of the match; and so is a token of ten characters behind
    [embed/], because the path prefix is optional and a slash is a token
    character. *)
Lemma C3_counterexample_token_length :
  token 12 "dQw4w9WgXcQX" /\
  is_valid_youtube_url (PyStr ("https://www.youtube.com/watch?v=" ++ "dQw4w9WgXcQX")) = inr true /\
  token 10 "dQw4w9WgXc" /\
  is_valid_youtube_url (PyStr ("https://www.youtube.com/embed/" ++ "dQw4w9WgXc")) = inr true.
Proof.
  split; [ | split; [reflexivity | split; [ | reflexivity]]].
  - split; [reflexivity | ]. unfold chars. simpl. repeat constructor.
  - split; [reflexivity | ]. unfold chars. simpl. repeat constructor.
Qed.

Example watch_token_of_length_10_rejected :
  is_valid_youtube_url (PyStr "https://www.youtube.com/watch?v=dQw4w9WgXc") = inr false.
Proof. reflexivity. Qed.

Example short_link_token_of_length_10_rejected :
  is_valid_youtube_url (PyStr "https://youtu.be/dQw4w9WgXc") = inr false.
Proof. reflexivity. Qed.

Example other_host_rejected :
  is_valid_youtube_url (PyStr "https://vimeo.com/watch?v=dQw4w9WgXcQ") = inr false.
Proof. reflexivity. Qed.

(** C9.  Called with [None], or with any other value that is false in a
    boolean context, the validator does not raise: the value is replaced
    by the empty string, which the pattern does not match, and the
    result is [False]. *)
Theorem C9_validator_false_on_falsy (v : pyval) :
  truthy v = false -> is_valid_youtube_url v = inr false.
Proof.
  intros Hv. unfold is_valid_youtube_url, py_or. rewrite Hv. reflexivity.
Qed.

Lemma C9_validator_false_on_None :
  truthy PyNone = false /\ is_valid_youtube_url PyNone = inr false.
Proof.
  split; [reflexivity | ]. apply (C9_validator_false_on_falsy PyNone). reflexivity.
Defined.

(** ** The order on sort keys *)

Section KeyOrder.

Local Open Scope Q_scope.

Lemma Qlt_bool_iff (x y : Q) : Qlt_bool x y = true <-> x < y.
Proof.
  unfold Qlt_bool. rewrite Qlt_alt. destruct (x ?= y); split; congruence.
Qed.

Lemma key_lt_spec (g1 g2 : Z) (h1 h2 a1 a2 : Q) :
  key_lt (g1, h1, a1) (g2, h2, a2) = true <->
  (g1 < g2)%Z \/ (g1 = g2 /\ (h1 < h2 \/ (h1 == h2 /\ a1 < a2))).
Proof.
  unfold key_lt.
  destruct (Z.eqb_spec g1 g2) as [Hg | Hg]; simpl.
  - destruct (Qeq_bool h1 h2) eqn:Hh; simpl.
    + apply Qeq_bool_iff in Hh.
      destruct (Qeq_bool a1 a2) eqn:Ha; simpl.
      * apply Qeq_bool_iff in Ha. split; [discriminate | ].
        intros [? | [_ [? | [_ ?]]]]; [lia | lra | lra].
      * rewrite Qlt_bool_iff. split; [auto | ].
        intros [? | [_ [? | [_ ?]]]]; [lia | lra | assumption].
    + apply Qeq_bool_neq in Hh. rewrite Qlt_bool_iff. split; [auto | ].
      intros [? | [_ [? | [? _]]]]; [lia | assumption | contradiction].
  - rewrite Z.ltb_lt. split; [auto | ]. intros [? | [? _]]; [assumption | contradiction].
Qed.

Lemma key_eq_spec (g1 g2 : Z) (h1 h2 a1 a2 : Q) :
  key_eq (g1, h1, a1) (g2, h2, a2) = true <-> g1 = g2 /\ h1 == h2 /\ a1 == a2.
Proof.
  unfold key_eq. rewrite !andb_true_iff, Z.eqb_eq, !Qeq_bool_iff. tauto.
Qed.

Lemma key_lt_false_spec (g1 g2 : Z) (h1 h2 a1 a2 : Q) :
  key_lt (g1, h1, a1) (g2, h2, a2) = false <->
  (g2 < g1)%Z \/ (g1 = g2 /\ (h2 < h1 \/ (h1 == h2 /\ a2 <= a1))).
Proof.
  rewrite <- not_true_iff_false, key_lt_spec. split.
  - intros H. destruct (Z.lt_total g1 g2) as [? | [? | ?]]; [tauto | | tauto].
    right. split; [assumption | ].
    destruct (Q_dec h1 h2) as [[? | ?] | ?]; [tauto | tauto | ].
    right. split; [assumption | ]. destruct (Qlt_le_dec a1 a2); tauto.
  - intros [? | [? [? | [? ?]]]] [? | [? [? | [? ?]]]]; lia || lra.
Qed.

Lemma key_lt_false_lex (k1 k2 : key) : key_lt k2 k1 = false <-> key_le_lex k1 k2.
Proof.
  destruct k1 as [[g1 h1] a1], k2 as [[g2 h2] a2].
  rewrite key_lt_false_spec. unfold key_le_lex.
  split; (intros [? | [? [? | [? ?]]]];
          [left; assumption | right; split; [lia | left; assumption]
          | right; split; [lia | right; split; [lra | assumption]]]).
Qed.

(** [<] on keys is a strict weak order, and [==] is its equivalence. *)
Lemma key_lt_irrefl (k : key) : key_lt k k = false.
Proof.
  destruct k as [[g h] a]. apply key_lt_false_spec. right. split; [reflexivity | ].
  right. split; [reflexivity | apply Qle_refl].
Qed.

Lemma key_le_trans (k1 k2 k3 : key) :
  key_lt k2 k1 = false -> key_lt k3 k2 = false -> key_lt k3 k1 = false.
Proof.
  destruct k1 as [[g1 h1] a1], k2 as [[g2 h2] a2], k3 as [[g3 h3] a3].
  rewrite !key_lt_false_spec.
  intros [? | [? [? | [? ?]]]] [? | [? [? | [? ?]]]];
    solve [ left; lia
          | right; split; [lia | left; lra]
          | right; split; [lia | right; split; lra] ].
Qed.

Lemma key_le_total (k1 k2 : key) : key_lt k1 k2 = true -> key_lt k2 k1 = false.
Proof.
  destruct k1 as [[g1 h1] a1], k2 as [[g2 h2] a2].
  rewrite key_lt_spec, key_lt_false_spec.
  intros [? | [? [? | [? ?]]]];
    solve [ left; lia
          | right; split; [lia | left; lra]
          | right; split; [lia | right; split; lra] ].
Qed.

Lemma key_eq_iff (k1 k2 : key) :
  key_eq k1 k2 = true <-> key_lt k1 k2 = false /\ key_lt k2 k1 = false.
Proof.
  destruct k1 as [[g1 h1] a1], k2 as [[g2 h2] a2].
  rewrite key_eq_spec, !key_lt_false_spec. split.
  - intros (-> & Hh & Ha). split; right; (split; [reflexivity | right; split; lra]).
  - intros [[? | [? [? | [? ?]]]] [? | [? [? | [? ?]]]]]; try lia; try lra.
    split; [assumption | split; lra].
Qed.

Lemma key_eq_refl (k : key) : key_eq k k = true.
Proof. apply key_eq_iff. split; apply key_lt_irrefl. Qed.

Lemma key_eq_sym (k1 k2 : key) : key_eq k1 k2 = key_eq k2 k1.
Proof.
  apply eq_true_iff_eq. rewrite !key_eq_iff. tauto.
Qed.

Lemma key_eq_trans (k1 k2 k3 : key) :
  key_eq k1 k2 = true -> key_eq k2 k3 = true -> key_eq k1 k3 = true.
Proof.
  rewrite !key_eq_iff. intros [H12 H21] [H23 H32]. split.
  - exact (key_le_trans _ _ _ H23 H12).
  - exact (key_le_trans _ _ _ H21 H32).
Qed.

End KeyOrder.

(** ** The stable sort *)

Section StableSort.

Local Open Scope list_scope.

Context {A : Type}.

Implicit Types (x y : key * A) (l d : list (key * A)).

Lemma insert_stable_perm x l : Permutation (insert_stable x l) (x :: l).
Proof.
  induction l as [ | y l IH]; simpl; [reflexivity | ].
  destruct (key_lt (fst y) (fst x)); [ | reflexivity].
  rewrite IH. apply perm_swap.
Qed.

Lemma sort_decorated_perm l : Permutation (sort_decorated l) l.
Proof.
  induction l as [ | x l IH]; simpl; [reflexivity | ].
  rewrite insert_stable_perm. now constructor.
Qed.

Lemma insert_stable_hd x y l :
  dle y x -> HdRel dle y l -> HdRel dle y (insert_stable x l).
Proof.
  intros Hyx Hl. destruct l as [ | z l]; simpl; [now constructor | ].
  destruct (key_lt (fst z) (fst x)); constructor; [now inversion Hl | assumption].
Qed.

Lemma insert_stable_sorted x l : Sorted dle l -> Sorted dle (insert_stable x l).
Proof.
  induction 1 as [ | y l Hl IH Hhd]; simpl; [repeat constructor | ].
  destruct (key_lt (fst y) (fst x)) eqn:Hlt.
  - constructor; [assumption | ].
    apply insert_stable_hd; [ | assumption]. now apply key_le_total.
  - repeat constructor; assumption.
Qed.

Lemma sort_decorated_sorted l : Sorted dle (sort_decorated l).
Proof.
  induction l as [ | x l IH]; simpl; [constructor | now apply insert_stable_sorted].
Qed.

Lemma dle_trans : Relations_1.Transitive (@dle A).
Proof. intros x y z Hxy Hyz. unfold dle in *. exact (key_le_trans _ _ _ Hxy Hyz). Qed.

Lemma sort_decorated_strongly_sorted l : StronglySorted dle (sort_decorated l).
Proof. apply Sorted_StronglySorted; [exact dle_trans | apply sort_decorated_sorted]. Qed.

(** Sorting a sorted list changes nothing. *)
Lemma sort_decorated_id l : Sorted dle l -> sort_decorated l = l.
Proof.
  induction 1 as [ | x l Hl IH Hhd]; simpl; [reflexivity | ].
  rewrite IH. destruct Hhd as [ | y l' Hxy]; simpl; [reflexivity | ].
  unfold dle in Hxy. now rewrite Hxy.
Qed.

(** Insertion keeps the elements of one key in their order, with the
    new element in front of them. *)
Lemma insert_stable_filter (k : key) x l :
  List.filter (same_key k) (insert_stable x l) = List.filter (same_key k) (x :: l).
Proof.
  induction l as [ | y l IH]; [reflexivity | ].
  cbn [insert_stable]. destruct (key_lt (fst y) (fst x)) eqn:Hlt; [ | reflexivity].
  cbn [List.filter] in *. rewrite IH.
  destruct (same_key k y) eqn:Hy, (same_key k x) eqn:Hx; try reflexivity.
  exfalso. unfold same_key in *.
  rewrite key_eq_sym in Hx.
  pose proof (key_eq_trans _ _ _ Hy Hx) as Hyx.
  apply key_eq_iff in Hyx as [Hyx _]. congruence.
Qed.

Lemma sort_decorated_filter (k : key) l :
  List.filter (same_key k) (sort_decorated l) = List.filter (same_key k) l.
Proof.
  induction l as [ | x l IH]; [reflexivity | ].
  cbn [sort_decorated]. rewrite insert_stable_filter. cbn [List.filter]. now rewrite IH.
Qed.

(** A sorted list is determined by its elements key by key, so every
    stable sort returns the list that [sort_decorated] returns. *)
Lemma filter_same_key_head (k : key) x l1 l2 :
  List.filter (same_key k) (x :: l1) = List.filter (same_key k) (x :: l2) ->
  List.filter (same_key k) l1 = List.filter (same_key k) l2.
Proof.
  cbn [List.filter]. destruct (same_key k x); [now intros [= ->] | auto].
Qed.

Lemma sorted_head_unique x y l1 l2 :
  Forall (dle x) l1 -> Forall (dle y) l2 ->
  List.filter (same_key (fst x)) (x :: l1) = List.filter (same_key (fst x)) (y :: l2) ->
  List.filter (same_key (fst y)) (x :: l1) = List.filter (same_key (fst y)) (y :: l2) ->
  x = y.
Proof.
  intros Hx Hy Hfx Hfy. cbn [List.filter] in Hfx, Hfy.
  change (same_key (fst x) x) with (key_eq (fst x) (fst x)) in Hfx.
  change (same_key (fst y) y) with (key_eq (fst y) (fst y)) in Hfy.
  rewrite key_eq_refl in Hfx, Hfy.
  destruct (same_key (fst x) y) eqn:Hyx; [now injection Hfx | ].
  destruct (same_key (fst y) x) eqn:Hxy.
  { unfold same_key in Hyx, Hxy. rewrite key_eq_sym in Hxy. congruence. }
  exfalso.
  assert (Hin2 : In x l2).
  { eapply (proj1 (List.filter_In _ _ _)). rewrite <- Hfx. now left. }
  assert (Hin1 : In y l1).
  { eapply (proj1 (List.filter_In _ _ _)). rewrite Hfy. now left. }
  rewrite List.Forall_forall in Hx, Hy.
  specialize (Hx _ Hin1). specialize (Hy _ Hin2). unfold dle in Hx, Hy.
  unfold same_key in Hxy. apply not_true_iff_false in Hxy. apply Hxy.
  apply key_eq_iff. auto.
Qed.

(** A sorted list is determined by its elements key by key, so every
    stable sort returns the list that [sort_decorated] returns. *)
Lemma stable_sorted_unique l1 l2 :
  StronglySorted dle l1 -> StronglySorted dle l2 ->
  (forall k, List.filter (same_key k) l1 = List.filter (same_key k) l2) ->
  l1 = l2.
Proof.
  intros H1. revert l2. induction H1 as [ | x l1 Hs1 IH Hall1]; intros l2 H2 Hf.
  - destruct l2 as [ | y l2]; [reflexivity | ].
    specialize (Hf (fst y)). cbn [List.filter] in Hf.
    change (same_key (fst y) y) with (key_eq (fst y) (fst y)) in Hf.
    rewrite key_eq_refl in Hf. discriminate.
  - destruct H2 as [ | y l2 Hs2 Hall2].
    + specialize (Hf (fst x)). cbn [List.filter] in Hf.
      change (same_key (fst x) x) with (key_eq (fst x) (fst x)) in Hf.
      rewrite key_eq_refl in Hf. discriminate.
    + assert (x = y) as <- by (eapply sorted_head_unique; eauto).
      f_equal. apply IH; [assumption | ].
      intros k. eapply filter_same_key_head, Hf.
Qed.

Lemma stable_sort_unique l l' :
  StronglySorted dle l' ->
  (forall k, List.filter (same_key k) l' = List.filter (same_key k) l) ->
  l' = sort_decorated l.
Proof.
  intros Hs Hf. apply stable_sorted_unique; [assumption | apply sort_decorated_strongly_sorted | ].
  intros k. now rewrite sort_decorated_filter.
Qed.

End StableSort.

(** ** [list.sort] with a key function *)

Section ListSort.

Local Open Scope list_scope.

Context {A : Type} (kf : A -> exn + key).

Lemma decorate_inr (l : list A) (d : list (key * A)) :
  decorate kf l = inr d -> map snd d = l /\ paired kf d.
Proof.
  revert d. induction l as [ | a l IH]; simpl; intros d.
  - intros [= <-]. split; [reflexivity | constructor].
  - destruct (kf a) as [e | ka] eqn:Ha; [discriminate | ].
    destruct (decorate kf l) as [e | d'] eqn:Hd; [discriminate | ].
    intros [= <-]. destruct (IH d' eq_refl) as [Hmap Hp].
    split; [simpl; now rewrite Hmap | now constructor].
Qed.

Lemma decorate_map_snd (d : list (key * A)) :
  paired kf d -> decorate kf (map snd d) = inr d.
Proof.
  induction 1 as [ | [k a] d Hk _ IH]; simpl; [reflexivity | ].
  simpl in Hk. now rewrite Hk, IH.
Qed.


Lemma paired_strongly_sorted (d : list (key * A)) :
  paired kf d -> StronglySorted dle d -> StronglySorted (le_by kf) (map snd d).
Proof.
  intros Hp Hs. induction Hs as [ | x d Hs IH Hall]; simpl; [constructor | ].
  inversion Hp as [ | ? ? Hx Hp']; subst.
  constructor; [now apply IH | ].
  rewrite List.Forall_forall in *. intros b Hb.
  apply List.in_map_iff in Hb as (y & <- & Hy).
  exists (fst x), (fst y). split; [assumption | ]. split; [now apply Hp' | ].
  apply key_lt_false_lex. now apply Hall.
Qed.

Lemma paired_filter (k : key) (d : list (key * A)) :
  paired kf d ->
  List.filter (has_key_by kf k) (map snd d) = map snd (List.filter (same_key k) d).
Proof.
  induction 1 as [ | [kx a] d Hk _ IH]; [reflexivity | ].
  simpl in Hk. cbn [map List.filter snd]. unfold has_key_by at 1, same_key at 1.
  rewrite Hk. cbn [fst]. destruct (key_eq kx k); simpl; now rewrite IH.
Qed.

(** What [list.sort(key=kf)] returns: the same elements, in order of
    their keys, those of one key in their former order; and sorting the
    result again returns it unchanged. *)
Lemma list_sort_spec (l l' : list A) :
  list_sort kf l = inr l' ->
  Permutation l l' /\
  StronglySorted (le_by kf) l' /\
  (forall k, List.filter (has_key_by kf k) l' = List.filter (has_key_by kf k) l) /\
  list_sort kf l' = inr l'.
Proof.
  unfold list_sort. destruct (decorate kf l) as [e | d] eqn:Hd; [discriminate | ].
  intros [= <-]. apply decorate_inr in Hd as [<- Hp].
  assert (Hp' : paired kf (sort_decorated d)).
  { unfold paired in *. now rewrite sort_decorated_perm. }
  split; [ | split; [ | split]].
  - apply Permutation_map. symmetry. apply sort_decorated_perm.
  - apply paired_strongly_sorted; [assumption | apply sort_decorated_strongly_sorted].
  - intros k. rewrite !paired_filter by assumption. now rewrite sort_decorated_filter.
  - rewrite decorate_map_snd by assumption.
    now rewrite sort_decorated_id by apply sort_decorated_sorted.
Qed.


End ListSort.

(** ** The retained formats *)

Section Formats.

Local Open Scope list_scope.

Lemma in_strs_spec (v : pyval) (ss : list string) :
  in_strs v ss = true <-> exists s, In s ss /\ v = PyStr s.
Proof.
  unfold in_strs. rewrite existsb_exists. split.
  - intros (s & Hs & Heq). exists s. split; [assumption | ].
    destruct v; try discriminate. simpl in Heq.
    apply String.eqb_eq in Heq. now subst.
  - intros (s & Hs & ->). exists s. split; [assumption | ]. simpl. apply String.eqb_refl.
Qed.

Lemma collect_formats_In (raw : list (gmap string pyval)) (f : fmt) :
  In f (collect_formats raw) <->
  exists r, In r raw /\ f = make_fmt r /\ in_strs (get r "ext") allowed_exts = true.
Proof.
  induction raw as [ | r raw IH]; cbn [collect_formats].
  - split; [intros [] | intros (r & [] & _)].
  - change (ext (make_fmt r)) with (get r "ext").
    destruct (in_strs (get r "ext") allowed_exts) eqn:Hext.
    + cbn [In]. rewrite IH. split.
      * intros [<- | (r' & Hin & Hf & He)]; [exists r; auto | exists r'; auto].
      * intros (r' & [<- | Hin] & Hf & He); [now left | right; eauto].
    + rewrite IH. split.
      * intros (r' & Hin & Hf & He). exists r'. cbn [In]. auto.
      * intros (r' & [<- | Hin] & Hf & He); [congruence | eauto].
Qed.

(** The three classifiers of a format built by [make_fmt] exclude each
    other, and one of them holds unless both codecs are ["none"]. *)
Lemma make_fmt_classifiers (r : gmap string pyval) :
  (classifiers_true (make_fmt r) <= 1)%nat /\
  (classifiers_true (make_fmt r) = 1%nat <->
   eq_str (get r "vcodec") "none" && eq_str (get r "acodec") "none" = false) /\
  (classifiers_true (make_fmt r) = 0%nat <->
   eq_str (get r "vcodec") "none" && eq_str (get r "acodec") "none" = true).
Proof.
  unfold classifiers_true, make_fmt, ne_str. cbn [progressive video_only audio_only].
  destruct (eq_str (get r "vcodec") "none"), (eq_str (get r "acodec") "none");
    simpl; (split; [lia | split; split; congruence]).
Qed.





End Formats.

(** ** The metadata handler *)



(** When [video_info] answers with metadata, the engine returned an
    [info] and the formats of the answer are the sorted retained ones. *)
Lemma video_info_JsonInfo (E : env) (args : gmap string string) (fs : gset string)
    (m : video_metadata) (st : state) :
  video_info E args (init fs) = (inr (JsonInfo m), st) ->
  exists i fs',
    extract_info_result E info_ydl_opts (strip (args_get args "url")) false fs = (inr i, fs') /\
    sort_formats (collect_formats (match info_formats i with Some l => l | None => [] end))
    = inr (meta_formats m).
Proof.
  unfold video_info. destruct (nonempty (strip (args_get args "url"))); simpl;
    [ | intros [= ]].
  rewrite is_valid_youtube_url_str. unfold bind at 1, lift at 1.
  destruct (matches YOUTUBE_REGEX (strip (args_get args "url"))); simpl; [ | intros [= ]].
  unfold try_except, bind at 1, extract_info. simpl.
  destruct (extract_info_result E info_ydl_opts (strip (args_get args "url")) false fs)
    as [[e | i] fs'] eqn:Hx; simpl; [intros [= ] | ].
  unfold bind, lift.
  destruct (sort_formats (collect_formats
              match info_formats i with Some l => l | None => [] end))
    as [e | sorted] eqn:Hs; simpl; [intros [= ] | ].
  intros [= <- <-]. exists i, fs'. auto.
Qed.

(** C2, as the code has it.  Every format in the answer of [video_info]
    was built from an entry of the engine's list whose extension is one
    of mp4, webm, m4a, mp3 and opus, and the entries with another
    extension are left out.  At most one of its three classifiers is
    true; exactly one is, unless both its codecs are the string "none",
    in which case none is. *)
Theorem C2_admitted_formats (E : env) (args : gmap string string) (fs : gset string)
    (m : video_metadata) (st : state) :
  video_info E args (init fs) = (inr (JsonInfo m), st) ->
  exists i fs',
    extract_info_result E info_ydl_opts (strip (args_get args "url")) false fs = (inr i, fs') /\
    let raw := match info_formats i with Some l => l | None => [] end in
    (forall f, In f (meta_formats m) <->
               exists r, In r raw /\ f = make_fmt r /\
                         in_strs (get r "ext") allowed_exts = true) /\
    Forall (fun f =>
              (exists e, In e allowed_exts /\ ext f = PyStr e) /\
              (classifiers_true f <= 1)%nat /\
              (classifiers_true f = 1%nat <-> no_codec f = false) /\
              (classifiers_true f = 0%nat <-> no_codec f = true))
           (meta_formats m).
Proof.
  intros H. apply video_info_JsonInfo in H as (i & fs' & Hx & Hs).
  exists i, fs'. split; [assumption | ]. intros raw. fold raw in Hs.
  apply list_sort_spec in Hs as (Hperm & _).
  assert (Hin : forall f, In f (meta_formats m) <->
                          exists r, In r raw /\ f = make_fmt r /\
                                    in_strs (get r "ext") allowed_exts = true).
  { intros f. rewrite <- collect_formats_In. split; apply Permutation_in;
      [symmetry | ]; assumption. }
  split; [exact Hin | ].
  apply List.Forall_forall. intros f Hf. apply Hin in Hf as (r & _ & -> & Hext).
  split; [apply in_strs_spec, Hext | apply make_fmt_classifiers].
Qed.

Lemma C2_admitted_formats_sample :
  exists m st,
    video_info (sample_env (ProcExit 0) (sample_info (PyStr "Clip") sample_raw) ∅ "" None None)
      sample_args (init ∅) = (inr (JsonInfo m), st) /\
    Forall (fun f => (classifiers_true f <= 1)%nat) (meta_formats m).
Proof.
  eexists _, _. split; [vm_compute; reflexivity | ].
  match goal with
  | |- Forall _ (meta_formats ?m) =>
      destruct (C2_admitted_formats
                  (sample_env (ProcExit 0) (sample_info (PyStr "Clip") sample_raw) ∅ "" None None)
                  sample_args ∅ m
                  (snd (video_info
                          (sample_env (ProcExit 0) (sample_info (PyStr "Clip") sample_raw)
                             ∅ "" None None)
                          sample_args (init ∅))))
        as (i & fs' & _ & _ & H)
  end.
  - vm_compute. reflexivity.
  - eapply List.Forall_impl; [ | exact H]. intros f (_ & Hle & _). exact Hle.
Defined.

(** An entry in the container mp4 whose two codecs are both "none" is
    admitted, and none of its classifiers is true. *)
Lemma C2_counterexample_no_classifier :
  exists m st f,
    video_info (sample_env (ProcExit 0) (sample_info (PyStr "Clip") [raw_no_codec]) ∅ "" None None)
      sample_args (init ∅) = (inr (JsonInfo m), st) /\
    In f (meta_formats m) /\
    ext f = PyStr "mp4" /\
    progressive f = false /\ video_only f = false /\ audio_only f = false.
Proof.
  eexists _, _, (make_fmt raw_no_codec). split; [vm_compute; reflexivity | ].
  split; [left; vm_compute; reflexivity | ].
  repeat split; vm_compute; reflexivity.
Qed.



(** ** The download handler, path by path *)

Ltac run_monad :=
  cbv beta zeta iota delta
    [bind try_except ret raise lift uuid4 extract_info prepare_filename os_path_exists
     os_remove print after_this_request send_file check_ffmpeg subprocess_run_check
     log init files trace hooks app negb fst snd].

Lemma download_no_url (E : env) (args : gmap string string) (fs : gset string) :
  nonempty (job_url args) = false ->
  download E args (init fs) = (inr (JsonError "No URL provided" 400), init fs).
Proof. intros H. unfold download. fold (job_url args). now rewrite H. Qed.

Lemma download_invalid_url (E : env) (args : gmap string string) (fs : gset string) :
  nonempty (job_url args) = true ->
  matches YOUTUBE_REGEX (job_url args) = false ->
  download E args (init fs) = (inr (JsonError "Invalid YouTube URL" 400), init fs).
Proof.
  intros Hne Hm. unfold download. fold (job_url args).
  rewrite Hne, is_valid_youtube_url_str, Hm. reflexivity.
Qed.

Lemma download_probe_failed (E : env) (args : gmap string string) (fs : gset string) :
  nonempty (job_url args) = true ->
  matches YOUTUBE_REGEX (job_url args) = true ->
  ffmpeg_run E <> ProcExit 0 ->
  download E args (init fs) =
  (inr (JsonError ffmpeg_missing_msg 500),
   {| files := fs; trace := [EvSubprocess ffmpeg_argv (ffmpeg_run E)]; hooks := [] |}).
Proof.
  intros Hne Hm Hff. unfold download. fold (job_url args).
  rewrite Hne, is_valid_youtube_url_str, Hm. run_monad.
  destruct (ffmpeg_run E) as [ | code]; [reflexivity | ].
  destruct (Z.eqb_spec code 0) as [-> | _]; [congruence | reflexivity].
Qed.

Lemma download_engine_raised (E : env) (args : gmap string string) (fs fs1 : gset string)
    (e : exn) :
  reaches_extraction E args ->
  extract_info_result E (job_opts E args) (job_url args) true fs = (inl e, fs1) ->
  download E args (init fs) =
  (inr (JsonError ("Download failed: " ++ e) 500),
   {| files := fs1;
      trace := [EvSubprocess ffmpeg_argv (ProcExit 0); EvUuid (uuid4_hex E);
                EvExtract (job_opts E args) (job_url args) true];
      hooks := [] |}).
Proof.
  intros (Hne & Hm & Hff) Hx. unfold download. fold (job_url args).
  rewrite Hne, is_valid_youtube_url_str, Hm. run_monad. rewrite Hff. run_monad.
  change (0 =? 0) with true. run_monad.
  fold (job_outtmpl E). fold (job_opts E args). rewrite Hx. reflexivity.
Qed.

Lemma download_prepare_raised (E : env) (args : gmap string string) (fs fs1 : gset string)
    (i : info) (e : exn) :
  reaches_extraction E args ->
  extract_info_result E (job_opts E args) (job_url args) true fs = (inr i, fs1) ->
  prepare_filename_result E (job_opts E args) i = inl e ->
  download E args (init fs) =
  (inr (JsonError ("Download failed: " ++ e) 500),
   {| files := fs1;
      trace := [EvSubprocess ffmpeg_argv (ProcExit 0); EvUuid (uuid4_hex E);
                EvExtract (job_opts E args) (job_url args) true; EvPrepareFilename];
      hooks := [] |}).
Proof.
  intros (Hne & Hm & Hff) Hx Hp. unfold download. fold (job_url args).
  rewrite Hne, is_valid_youtube_url_str, Hm. run_monad. rewrite Hff. run_monad.
  change (0 =? 0) with true. run_monad.
  fold (job_outtmpl E). fold (job_opts E args). rewrite Hx. run_monad. rewrite Hp. reflexivity.
Qed.

(** The handler once the engine has returned [i] and reported [p]. *)
Lemma download_resolution (E : env) (args : gmap string string) (fs fs1 : gset string)
    (i : info) (p : string) :
  reaches_extraction E args ->
  extract_info_result E (job_opts E args) (job_url args) true fs = (inr i, fs1) ->
  prepare_filename_result E (job_opts E args) i = inr p ->
  download E args (init fs) =
  let final_path := resolved_path fs1 p in
  let t := resolution_trace E args fs1 p in
  if bool_decide (final_path ∈ fs1) then
    match job_title i with
    | inl e =>
        (inr (JsonError ("Download failed: " ++ e) 500),
         {| files := fs1; trace := t; hooks := [] |})
    | inr title =>
        let name := safe_title_of title ++ "." ++ ext_of final_path in
        (match send_file_error E final_path with
         | Some e => inr (JsonError ("Download failed: " ++ e) 500)
         | None => inr (SendFile (Attachment final_path name))
         end,
         {| files := fs1;
            trace := (t ++ [EvSendFile final_path name])%list;
            hooks := [RemoveFile final_path] |})
    end
  else
    (inr (JsonError "File not found after download" 500),
     {| files := fs1; trace := t; hooks := [] |}).
Proof.
  intros (Hne & Hm & Hff) Hx Hp. unfold download. fold (job_url args).
  rewrite Hne, is_valid_youtube_url_str, Hm. run_monad. rewrite Hff. run_monad.
  change (0 =? 0) with true. run_monad.
  fold (job_outtmpl E). fold (job_opts E args). rewrite Hx. run_monad. rewrite Hp. run_monad.
  fold (job_title i).
  change ((let (x, _) := OsPath.splitext p in x) ++ ".mp4") with (alt_path p).
  unfold resolution_trace, resolved_path.
  destruct (bool_decide (p ∈ fs1)) eqn:H1; run_monad.
  - rewrite H1. destruct (job_title i) as [e | title]; [reflexivity | ].
    destruct (send_file_error E p); reflexivity.
  - destruct (bool_decide (alt_path p ∈ fs1)) eqn:H2; run_monad.
    + rewrite H2. destruct (job_title i) as [e | title]; [reflexivity | ].
      destruct (send_file_error E (alt_path p)); reflexivity.
    + rewrite H1. reflexivity.
Qed.

(** ** The cleanup hook and the request cycle *)

Lemma remove_file_run (E : env) (final_path : string) (r : response) (st : state) :
  remove_file E final_path r st =
  (inr r,
   if bool_decide (final_path ∈ files st) then
     match os_remove_error E final_path with
     | Some e =>
         {| files := files st;
            trace := (trace st ++ [EvExists final_path true; EvRemove final_path;
                                   EvPrint ("Cleanup error: " ++ e)])%list;
            hooks := hooks st |}
     | None =>
         {| files := files st ∖ {[final_path]};
            trace := (trace st ++ [EvExists final_path true; EvRemove final_path])%list;
            hooks := hooks st |}
     end
   else
     {| files := files st;
        trace := (trace st ++ [EvExists final_path false])%list;
        hooks := hooks st |}).
Proof.
  unfold remove_file, bind, try_except, os_path_exists, os_remove, print, ret, log.
  destruct st as [fs t hs]. cbn [files trace hooks].
  destruct (bool_decide (final_path ∈ fs)) eqn:Hin; cbn [files trace hooks].
  - rewrite Hin. destruct (os_remove_error E final_path) as [e | ]; cbn [files trace hooks];
      now rewrite <- ?List.app_assoc.
  - reflexivity.
Qed.

(** ** Readings of the trace of [download] *)

Lemma reaches_or_not (E : env) (args : gmap string string) :
  reaches_extraction E args \/
  nonempty (job_url args) = false \/
  (nonempty (job_url args) = true /\ matches YOUTUBE_REGEX (job_url args) = false) \/
  (nonempty (job_url args) = true /\ matches YOUTUBE_REGEX (job_url args) = true /\
   ffmpeg_run E <> ProcExit 0).
Proof.
  unfold reaches_extraction.
  destruct (nonempty (job_url args)); [ | auto].
  destruct (matches YOUTUBE_REGEX (job_url args)); [ | auto].
  destruct (ffmpeg_run E) as [ | code]; [right; right; right; auto | ].
  destruct (Z.eq_dec code 0) as [-> | Hne]; [auto | ].
  right; right; right. repeat split. congruence.
Qed.

(** The trace of a request that reaches the engine begins with the
    successful probe, one identifier and one call of the engine. *)
Lemma download_trace_reached (E : env) (args : gmap string string) (fs : gset string) :
  reaches_extraction E args ->
  exists t,
    trace (snd (download E args (init fs))) =
    (EvSubprocess ffmpeg_argv (ProcExit 0) :: EvUuid (uuid4_hex E) ::
     EvExtract (job_opts E args) (job_url args) true :: t) /\
    extractions t = [] /\ identifiers t = [].
Proof.
  intros Hr.
  destruct (extract_info_result E (job_opts E args) (job_url args) true fs)
    as [[e | i] fs1] eqn:Hx.
  { rewrite (download_engine_raised _ _ _ _ _ Hr Hx). exists []. auto. }
  destruct (prepare_filename_result E (job_opts E args) i) as [e | p] eqn:Hp.
  { rewrite (download_prepare_raised _ _ _ _ _ _ Hr Hx Hp). eexists. split; [reflexivity | auto]. }
  rewrite (download_resolution _ _ _ _ _ _ Hr Hx Hp). cbv zeta. unfold resolution_trace.
  destruct (bool_decide (resolved_path fs1 p ∈ fs1)), (job_title i),
    (bool_decide (p ∈ fs1)); cbn [snd trace app];
    (eexists; split; [reflexivity | split; reflexivity]).
Qed.

Lemma download_trace_not_reached (E : env) (args : gmap string string) (fs : gset string) :
  ~ reaches_extraction E args ->
  extractions (trace (snd (download E args (init fs)))) = [] /\
  identifiers (trace (snd (download E args (init fs)))) = [] /\
  probe_outcome (trace (snd (download E args (init fs)))) =
  (if nonempty (job_url args) && matches YOUTUBE_REGEX (job_url args)
   then Some (ffmpeg_run E) else None).
Proof.
  intros Hn. destruct (reaches_or_not E args) as [Hr | [H | [[H1 H2] | (H1 & H2 & H3)]]].
  - contradiction.
  - rewrite (download_no_url _ _ _ H), H. auto.
  - rewrite (download_invalid_url _ _ _ H1 H2), H1, H2. auto.
  - rewrite (download_probe_failed _ _ _ H1 H2 H3), H1, H2. auto.
Qed.



Lemma job_opts_format (E : env) (args : gmap string string) :
  job_opts E args !! "format" =
  Some (PyStr (format_spec_of (strip (args_get args "format_id")))).
Proof. reflexivity. Qed.

(** C8, as the code has it.  A download request that passes the URL
    checks and the ffmpeg probe calls the engine once, in download mode
    on the trimmed URL, and the [format] option of that call is the
    supplied [format_id], trimmed, when that is not empty, and
    "bestvideo+bestaudio/best" when [format_id] is absent, empty or
    made of whitespace.  A request that does not pass them does not call
    the engine. *)
Theorem C8_effective_format_spec (E : env) (args : gmap string string) (fs : gset string) :
  (reaches_extraction E args ->
   exists o,
     extractions (trace (snd (download E args (init fs)))) = [(o, job_url args, true)] /\
     (args !! "format_id" = None ->
      o !! "format" = Some (PyStr "bestvideo+bestaudio/best")) /\
     (forall supplied,
        args !! "format_id" = Some supplied ->
        (strip supplied <> "" -> o !! "format" = Some (PyStr (strip supplied))) /\
        (strip supplied = "" -> o !! "format" = Some (PyStr "bestvideo+bestaudio/best")))) /\
  (~ reaches_extraction E args ->
   extractions (trace (snd (download E args (init fs)))) = []).
Proof.
  split.
  - intros Hr. destruct (download_trace_reached E args fs Hr) as (t & Ht & Hex & _).
    exists (job_opts E args). rewrite Ht. cbn [extractions]. rewrite Hex.
    split; [reflexivity | ]. rewrite job_opts_format.
    unfold format_spec_of, args_get, nonempty. split.
    + intros ->. reflexivity.
    + intros supplied ->. destruct (String.eqb_spec (strip supplied) "") as [-> | Hne];
        simpl; split; congruence.
  - intros Hn. apply (download_trace_not_reached E args fs Hn).
Qed.

(** Two requests in the sample world: one with a padded [format_id],
    one without. *)
Lemma C8_effective_format_spec_sample :
  let E := sample_env (ProcExit 0) (sample_info PyNone []) ∅ "" None None in
  (exists o,
     extractions (trace (snd (download E {[ "url" := sample_url; "format_id" := " 137+140 " ]}
                                (init ∅)))) = [(o, sample_url, true)] /\
     o !! "format" = Some (PyStr "137+140")) /\
  (exists o,
     extractions (trace (snd (download E sample_args (init ∅)))) = [(o, sample_url, true)] /\
     o !! "format" = Some (PyStr "bestvideo+bestaudio/best")).
Proof.
  intros E. split.
  - destruct (proj1 (C8_effective_format_spec E
                       {[ "url" := sample_url; "format_id" := " 137+140 " ]} ∅))
      as (o & Hcall & _ & Hfmt).
    + repeat split; vm_compute; reflexivity.
    + exists o. split; [exact Hcall | ].
      apply (proj1 (Hfmt " 137+140 " ltac:(vm_compute; reflexivity))).
      vm_compute. discriminate.
  - destruct (proj1 (C8_effective_format_spec E sample_args ∅)) as (o & Hcall & Hfmt & _).
    + repeat split; vm_compute; reflexivity.
    + exists o. split; [exact Hcall | ].
      apply Hfmt. vm_compute. reflexivity.
Defined.

(** ** [os.path.splitext] on a path with a proper extension *)

Section Splitext.

Lemma string_length_app (a b : string) :
  String.length (a ++ b) = (String.length a + String.length b)%nat.
Proof. induction a as [ | c a IH]; simpl; [reflexivity | now rewrite IH]. Qed.

Lemma string_app_assoc (a b c : string) : (a ++ b) ++ c = a ++ b ++ c.
Proof.
  induction a as [ | x a IH]; [reflexivity | ].
  change (String x ((a ++ b) ++ c) = String x (a ++ b ++ c)). now rewrite IH.
Qed.

Lemma substring_0_0 (s : string) : substring 0 0 s = "".
Proof. now destruct s. Qed.

Lemma substring_skip (a s : string) (n m : nat) :
  substring (String.length a + n) m (a ++ s) = substring n m s.
Proof. induction a as [ | c a IH]; simpl; [reflexivity | exact IH]. Qed.

Lemma substring_prefix (a b : string) : substring 0 (String.length a) (a ++ b) = a.
Proof.
  induction a as [ | c a IH]; simpl; [apply substring_0_0 | now rewrite IH].
Qed.

Lemma substring_all (s : string) : substring 0 (String.length s) s = s.
Proof. induction s as [ | c s IH]; simpl; [reflexivity | now rewrite IH]. Qed.

Lemma rfind_from_none (c : ascii) (s : string) (i : Z) :
  ~ In c (chars s) -> rfind_from c s i = -1.
Proof.
  revert i. induction s as [ | a s IH]; intros i Hn; simpl; [reflexivity | ].
  simpl in Hn. rewrite IH by tauto. simpl.
  destruct (Ascii.eqb_spec a c) as [-> | _]; [tauto | reflexivity].
Qed.

Lemma rfind_from_last (c : ascii) (a b : string) (i : Z) :
  0 <= i -> ~ In c (chars b) ->
  rfind_from c (a ++ String c b) i = i + Z.of_nat (String.length a).
Proof.
  revert i. induction a as [ | x a IH]; intros i Hi Hn; simpl.
  - rewrite rfind_from_none by assumption. simpl. rewrite Ascii.eqb_refl. lia.
  - rewrite IH by (lia || assumption).
    destruct (Z.leb_spec 0 (i + 1 + Z.of_nat (String.length a))); lia.
Qed.

Lemma splitext_loop_found (p q rest tail : string) (dotIndex : Z) :
  p = q ++ rest ++ tail ->
  lstrip_dots rest <> "" ->
  OsPath.splitext_loop p dotIndex (String.length rest) (Z.of_nat (String.length q)) =
  (slice_to p dotIndex, slice_from p dotIndex).
Proof.
  revert q. induction rest as [ | c rest IH]; intros q Hp Hne; [now contradict Hne | ].
  cbn [String.length OsPath.splitext_loop].
  assert (Hc : char_at p (Z.of_nat (String.length q)) = String c "").
  { unfold char_at. rewrite Nat2Z.id, Hp.
    rewrite <- (Nat.add_0_r (String.length q)), substring_skip. simpl.
    now rewrite substring_0_0. }
  rewrite Hc. unfold lstrip_dots in Hne. cbn [lstrip_by] in Hne. simpl String.eqb.
  rewrite Ascii.eqb_sym.
  destruct (Ascii.eqb "." c) eqn:Hdot; simpl.
  - apply Ascii.eqb_eq in Hdot. subst c.
    replace (Z.of_nat (String.length q) + 1) with (Z.of_nat (String.length (q ++ "."))).
    + apply IH; [ | exact Hne]. rewrite Hp, string_app_assoc. reflexivity.
    + rewrite string_length_app. simpl. lia.
  - destruct c as [[] [] [] [] [] [] [] []]; try reflexivity; discriminate.
Qed.

(** A path made of a directory part, a file name that is not made of
    dots only, a dot and an extension splits before that dot. *)
Lemma splitext_name_ext (pre name e : string) :
  (pre = "" \/ exists q, pre = q ++ "/") ->
  ~ In "/"%char (chars name) -> ~ In "/"%char (chars e) -> ~ In "."%char (chars e) ->
  lstrip_dots name <> "" ->
  OsPath.splitext (pre ++ name ++ "." ++ e) = (pre ++ name, "." ++ e).
Proof.
  intros Hpre Hn1 He1 He2 Hname. unfold OsPath.splitext.
  set (p := pre ++ name ++ "." ++ e).
  assert (Hdot : rfind "." p = Z.of_nat (String.length (pre ++ name))).
  { unfold p, rfind. rewrite <- string_app_assoc. 
    change ("." ++ e) with (String "." e).
    rewrite rfind_from_last by (lia || assumption). lia. }
  assert (Hrest : ~ In "/"%char (chars (name ++ String "." e))).
  { rewrite chars_app. change (chars (String "." e)) with ("."%char :: chars e).
    intros H. apply in_app_or in H as [H | [H | H]]; [tauto | discriminate | tauto]. }
  assert (Hsep : rfind "/" p + 1 = Z.of_nat (String.length pre)).
  { unfold p, rfind. change ("." ++ e) with (String "." e).
    destruct Hpre as [-> | [q ->]].
    - change ("" ++ name ++ String "." e) with (name ++ String "." e).
      now rewrite rfind_from_none.
    - rewrite string_app_assoc.
      change ("/" ++ name ++ String "." e) with (String "/" (name ++ String "." e)).
      rewrite rfind_from_last by (lia || assumption).
      rewrite string_length_app. simpl. lia. }
  rewrite Hdot. rewrite string_length_app in *.
  replace (rfind "/" p <? Z.of_nat (String.length pre + String.length name)) with true
    by (symmetry; apply Z.ltb_lt; lia).
  replace (Z.to_nat (Z.of_nat (String.length pre + String.length name) - (rfind "/" p + 1)))
    with (String.length name) by lia.
  rewrite Hsep.
  rewrite (splitext_loop_found p pre name ("." ++ e)) by (reflexivity || assumption).
  unfold slice_to, slice_from. rewrite Nat2Z.id. unfold p.
  rewrite <- (string_length_app pre name), <- string_app_assoc.
  rewrite substring_prefix. f_equal.
  rewrite <- (Nat.add_0_r (String.length (pre ++ name))) at 1.
  rewrite substring_skip, string_length_app.
  replace (String.length (pre ++ name) + String.length ("." ++ e) - String.length (pre ++ name))%nat
    with (String.length ("." ++ e)) by lia.
  apply substring_all.
Qed.

Lemma rfind_from_app_none (c : ascii) (a b : string) (i : Z) :
  ~ In c (chars b) -> rfind_from c (a ++ b) i = rfind_from c a i.
Proof.
  intros Hn. revert i. induction a as [ | x a IH]; intros i.
  - change ("" ++ b) with b. now rewrite rfind_from_none.
  - change (String x a ++ b) with (String x (a ++ b)). simpl. now rewrite IH.
Qed.

Lemma rfind_from_bound (c : ascii) (s : string) (i : Z) :
  0 <= i -> rfind_from c s i < i + Z.of_nat (String.length s) \/ s = "".
Proof.
  revert i. induction s as [ | x s IH]; intros i Hi; [now right | left].
  cbn [rfind_from String.length].
  destruct (IH (i + 1) ltac:(lia)) as [H | ->].
  - destruct (0 <=? rfind_from c s (i + 1)); [lia | ].
    destruct (Ascii.eqb x c); lia.
  - simpl. destruct (Ascii.eqb x c); lia.
Qed.

(** A path whose file name has no dot has no extension. *)
Lemma splitext_no_ext (pre name : string) :
  (pre = "" \/ exists q, pre = q ++ "/") ->
  ~ In "/"%char (chars name) -> ~ In "."%char (chars name) ->
  OsPath.splitext (pre ++ name) = (pre ++ name, "").
Proof.
  intros Hpre Hn1 Hn2. unfold OsPath.splitext.
  replace (rfind "/" (pre ++ name) <? rfind "." (pre ++ name)) with false; [reflexivity | ].
  symmetry. apply Z.ltb_ge. unfold rfind. destruct Hpre as [-> | [q ->]].
  - change ("" ++ name) with name. rewrite !rfind_from_none by assumption. lia.
  - rewrite string_app_assoc. change ("/" ++ name) with (String "/" name).
    rewrite rfind_from_last by (lia || assumption).
    rewrite rfind_from_app_none.
    + destruct (rfind_from_bound "." q 0 ltac:(lia)) as [H | ->]; [lia | simpl; lia].
    + change (chars (String "/" name)) with ("/"%char :: chars name).
      intros [H | H]; [discriminate | tauto].
Qed.

Lemma lstrip_dots_no_dot (e : string) : ~ In "."%char (chars e) -> lstrip_dots e = e.
Proof.
  destruct e as [ | c e]; [reflexivity | ]. intros Hn. unfold lstrip_dots. cbn [lstrip_by].
  destruct (Ascii.eqb_spec "." c) as [<- | _]; [ | reflexivity].
  contradict Hn. now left.
Qed.

(** The extension and the fallback of a path with a proper extension,
    and the extension of a path without one. *)
Lemma ext_of_name_ext (pre name e : string) :
  (pre = "" \/ exists q, pre = q ++ "/") ->
  ~ In "/"%char (chars name) -> ~ In "/"%char (chars e) -> ~ In "."%char (chars e) ->
  lstrip_dots name <> "" -> e <> "" ->
  ext_of (pre ++ name ++ "." ++ e) = e /\
  alt_path (pre ++ name ++ "." ++ e) = pre ++ name ++ ".mp4".
Proof.
  intros Hpre Hn1 He1 He2 Hname He. unfold ext_of, alt_path.
  rewrite splitext_name_ext by assumption. cbn [fst snd]. split.
  - change (lstrip_dots ("." ++ e)) with (lstrip_dots e).
    rewrite lstrip_dots_no_dot by assumption.
    unfold nonempty. destruct (String.eqb_spec e ""); [contradiction | reflexivity].
  - apply string_app_assoc.
Qed.

Lemma alt_path_name_ext (pre name e : string) :
  (pre = "" \/ exists q, pre = q ++ "/") ->
  ~ In "/"%char (chars name) -> ~ In "/"%char (chars e) -> ~ In "."%char (chars e) ->
  lstrip_dots name <> "" ->
  alt_path (pre ++ name ++ "." ++ e) = pre ++ name ++ ".mp4".
Proof.
  intros Hpre Hn1 He1 He2 Hname. unfold alt_path.
  rewrite splitext_name_ext by assumption. apply string_app_assoc.
Qed.

Lemma ext_of_no_ext (pre name : string) :
  (pre = "" \/ exists q, pre = q ++ "/") ->
  ~ In "/"%char (chars name) -> ~ In "."%char (chars name) ->
  ext_of (pre ++ name) = "mp4" /\ alt_path (pre ++ name) = pre ++ name ++ ".mp4".
Proof.
  intros Hpre Hn1 Hn2. unfold ext_of, alt_path.
  rewrite splitext_no_ext by assumption. split; [reflexivity | apply string_app_assoc].
Qed.

End Splitext.

(** ** Resolution of the produced file *)

(** C4.  After an extraction that succeeds the engine has been called
    once.  If the reported path exists it is kept.  If it does not, the
    one other path probed is the reported path with its extension
    replaced by [.mp4], which is taken when it exists; when neither
    exists the answer is the status 500 with the message "File not found
    after download", the engine is not called again and no hook is
    registered. *)
Theorem C4_single_mp4_fallback (E : env) (args : gmap string string)
    (fs fs1 : gset string) (i : info) (p : string) :
  reaches_extraction E args ->
  extract_info_result E (job_opts E args) (job_url args) true fs = (inr i, fs1) ->
  prepare_filename_result E (job_opts E args) i = inr p ->
  let r := fst (download E args (init fs)) in
  let st := snd (download E args (init fs)) in
  extractions (trace st) = [(job_opts E args, job_url args, true)] /\
  (p ∈ fs1 -> probed_paths (trace st) = [p; p]) /\
  (p ∉ fs1 -> alt_path p ∈ fs1 ->
   probed_paths (trace st) = [p; alt_path p; alt_path p] /\
   (hooks st = [] \/ hooks st = [RemoveFile (alt_path p)]) /\
   (forall f, r = inr (SendFile f) -> exists name, f = Attachment (alt_path p) name)) /\
  (p ∉ fs1 -> alt_path p ∉ fs1 ->
   r = inr (JsonError "File not found after download" 500) /\
   probed_paths (trace st) = [p; alt_path p; p] /\
   hooks st = [] /\ files st = fs1) /\
  (forall pre base e,
     (pre = "" \/ exists q, pre = q ++ "/") ->
     ~ In "/"%char (chars base) -> ~ In "/"%char (chars e) -> ~ In "."%char (chars e) ->
     lstrip_dots base <> "" ->
     p = pre ++ base ++ "." ++ e -> alt_path p = pre ++ base ++ ".mp4").
Proof.
  intros Hr Hx Hp r st.
  cut (extractions (trace st) = [(job_opts E args, job_url args, true)] /\
       (p ∈ fs1 -> probed_paths (trace st) = [p; p]) /\
       (p ∉ fs1 -> alt_path p ∈ fs1 ->
        probed_paths (trace st) = [p; alt_path p; alt_path p] /\
        (hooks st = [] \/ hooks st = [RemoveFile (alt_path p)]) /\
        (forall f, r = inr (SendFile f) -> exists name, f = Attachment (alt_path p) name)) /\
       (p ∉ fs1 -> alt_path p ∉ fs1 ->
        r = inr (JsonError "File not found after download" 500) /\
        probed_paths (trace st) = [p; alt_path p; p] /\
        hooks st = [] /\ files st = fs1)).
  { intros (H1 & H2 & H3 & H4). repeat (split; [assumption | ]).
    intros pre base e Hpre Hb He1 He2 Hbase ->. now apply alt_path_name_ext. }
  split.
  { destruct (download_trace_reached E args fs Hr) as (t & Ht & Hex & _).
    unfold st. rewrite Ht. cbn [extractions]. now rewrite Hex. }
  unfold r, st. rewrite (download_resolution E args fs fs1 i p Hr Hx Hp). cbv zeta.
  unfold resolution_trace, resolved_path.
  split; [ | split].
  - intros H1. rewrite !(bool_decide_eq_true_2 _ H1).
    destruct (job_title i); reflexivity.
  - intros H1 H2.
    rewrite !(bool_decide_eq_false_2 _ H1), !(bool_decide_eq_true_2 _ H2).
    destruct (job_title i) as [e | title]; cbn [fst snd trace hooks].
    + split; [reflexivity | ]. split; [now left | ]. intros f [= ].
    + split; [reflexivity | ]. split; [now right | ].
      destruct (send_file_error E (alt_path p)); intros f [= <-]. eauto.
  - intros H1 H2.
    rewrite !(bool_decide_eq_false_2 _ H1), !(bool_decide_eq_false_2 _ H2).
    rewrite !(bool_decide_eq_false_2 _ H1). auto.
Qed.

Lemma C4_single_mp4_fallback_sample :
  let E := sample_env (ProcExit 0) (sample_info (PyStr "Clip") []) ∅
             (sample_path "webm") None None in
  fst (download E sample_args (init ∅)) =
  inr (JsonError "File not found after download" 500) /\
  probed_paths (trace (snd (download E sample_args (init ∅)))) =
  [sample_path "webm"; alt_path (sample_path "webm"); sample_path "webm"].
Proof.
  intros E.
  destruct (C4_single_mp4_fallback E sample_args ∅ ∅ (sample_info (PyStr "Clip") [])
              (sample_path "webm"))
    as (_ & _ & _ & H & _).
  - repeat split; vm_compute; reflexivity.
  - vm_compute. reflexivity.
  - reflexivity.
  - destruct H as (Hr & Hprobed & _); [apply not_elem_of_empty | apply not_elem_of_empty | ].
    auto.
Defined.

Example alt_path_sample : alt_path (sample_path "webm") = sample_path "mp4".
Proof. vm_compute. reflexivity. Qed.

(** ** The name of the attachment *)

Lemma exists_by_decide (p : string) (fs : gset string) :
  bool_decide (p ∈ fs) = true -> p ∈ fs.
Proof. apply bool_decide_eq_true_1. Qed.

Lemma class_mem_elem_of (cs : list ascii) (c : ascii) :
  class_mem cs c = bool_decide (c ∈ cs).
Proof.
  unfold class_mem. induction cs as [ | a cs IH]; cbn [existsb].
  - symmetry. apply bool_decide_eq_false_2. apply not_elem_of_nil.
  - rewrite IH. destruct (Ascii.eqb_spec c a) as [-> | Hne]; cbn [orb].
    + symmetry. apply bool_decide_eq_true_2. apply list_elem_of_here.
    + apply bool_decide_ext. rewrite elem_of_cons. tauto.
Qed.

Lemma safe_title_of_chars (t : string) :
  chars (safe_title_of t) = map replace_unsafe (chars t).
Proof.
  unfold safe_title_of. induction t as [ | c t IH]; [reflexivity | ].
  change (chars (String c t)) with (c :: chars t). cbn [sub_class map].
  rewrite <- IH. unfold replace_unsafe. rewrite <- class_mem_elem_of.
  destruct (class_mem unsafe_chars c); reflexivity.
Qed.

Lemma job_title_default (i : info) :
  truthy (get (info_fields i) "title") = false -> job_title i = inr "video".
Proof. intros H. unfold job_title, py_or. now rewrite H. Qed.

Lemma job_title_str (i : info) (title : string) :
  get (info_fields i) "title" = PyStr title -> title <> "" ->
  job_title i = inr (strip title).
Proof.
  intros H Hne. unfold job_title, py_or. rewrite H. simpl.
  destruct (String.eqb_spec title ""); [contradiction | reflexivity].
Qed.

(** The call of [send_file] and the answer of a job whose file is
    resolved and whose title, after default and trimming, is [title]. *)
Lemma download_send_file (E : env) (args : gmap string string) (fs fs1 : gset string)
    (i : info) (p title : string) :
  reaches_extraction E args ->
  extract_info_result E (job_opts E args) (job_url args) true fs = (inr i, fs1) ->
  prepare_filename_result E (job_opts E args) i = inr p ->
  resolved_path fs1 p ∈ fs1 ->
  job_title i = inr title ->
  let final_path := resolved_path fs1 p in
  let name := safe_title_of title ++ "." ++ ext_of final_path in
  In (EvSendFile final_path name) (trace (snd (download E args (init fs)))) /\
  (send_file_error E final_path = None ->
   fst (download E args (init fs)) = inr (SendFile (Attachment final_path name))).
Proof.
  intros Hr Hx Hp Hin Ht final_path name.
  rewrite (download_resolution E args fs fs1 i p Hr Hx Hp). cbv zeta.
  fold final_path. rewrite (bool_decide_eq_true_2 _ Hin), Ht. fold name.
  cbn [fst snd trace]. split.
  - apply in_or_app. right. now left.
  - intros ->. reflexivity.
Qed.

(** C6, as the code has it.  The name of the attachment is made of the
    title with its surrounding whitespace trimmed and each of the nine
    characters (backslash, slash, star, question mark, colon, double
    quote, less-than, greater-than, bar) replaced by an underscore, then
    a dot, then the extension of the resolved file, or mp4 when that
    file has no extension.  The title My:Video/Clip? becomes
    My_Video_Clip_. *)
Theorem C6_attachment_name (E : env) (args : gmap string string) (fs fs1 : gset string)
    (i : info) (p title : string) :
  reaches_extraction E args ->
  extract_info_result E (job_opts E args) (job_url args) true fs = (inr i, fs1) ->
  prepare_filename_result E (job_opts E args) i = inr p ->
  resolved_path fs1 p ∈ fs1 ->
  get (info_fields i) "title" = PyStr title -> title <> "" ->
  let final_path := resolved_path fs1 p in
  let name := safe_title_of (strip title) ++ "." ++ ext_of final_path in
  In (EvSendFile final_path name) (trace (snd (download E args (init fs)))) /\
  (send_file_error E final_path = None ->
   fst (download E args (init fs)) = inr (SendFile (Attachment final_path name))) /\
  chars (safe_title_of (strip title)) = map replace_unsafe (chars (strip title)) /\
  (forall pre base e,
     (pre = "" \/ exists q, pre = q ++ "/") ->
     ~ In "/"%char (chars base) -> ~ In "/"%char (chars e) -> ~ In "."%char (chars e) ->
     lstrip_dots base <> "" -> e <> "" ->
     final_path = pre ++ base ++ "." ++ e -> ext_of final_path = e) /\
  (forall pre base,
     (pre = "" \/ exists q, pre = q ++ "/") ->
     ~ In "/"%char (chars base) -> ~ In "."%char (chars base) ->
     final_path = pre ++ base -> ext_of final_path = "mp4") /\
  safe_title_of "My:Video/Clip?" = "My_Video_Clip_".
Proof.
  intros Hr Hx Hp Hin Ht Hne final_path name.
  pose proof (job_title_str i title Ht Hne) as Hjt.
  destruct (download_send_file E args fs fs1 i p _ Hr Hx Hp Hin Hjt) as [Hcall Hresp].
  split; [exact Hcall | ]. split; [exact Hresp | ].
  split; [apply safe_title_of_chars | ]. split; [ | split; [ | reflexivity]].
  - intros pre base e H1 H2 H3 H4 H5 H6 ->. now apply ext_of_name_ext.
  - intros pre base H1 H2 H3 ->. now apply ext_of_no_ext.
Qed.

Lemma C6_attachment_name_sample :
  let E := sample_env (ProcExit 0) (sample_info (PyStr "My:Video/Clip?") [])
             {[sample_path "mp4"]} (sample_path "webm") None None in
  fst (download E sample_args (init ∅)) =
  inr (SendFile (Attachment (sample_path "mp4") "My_Video_Clip_.mp4")).
Proof.
  intros E.
  destruct (C6_attachment_name E sample_args ∅ {[sample_path "mp4"]}
              (sample_info (PyStr "My:Video/Clip?") []) (sample_path "webm")
              "My:Video/Clip?")
    as (_ & H & _).
  - repeat split; vm_compute; reflexivity.
  - vm_compute. reflexivity.
  - reflexivity.
  - apply exists_by_decide. vm_compute. reflexivity.
  - vm_compute. reflexivity.
  - discriminate.
  - rewrite H by reflexivity. vm_compute. reflexivity.
Defined.

(** The whitespace around a title does not reach the name. *)
Lemma C6_counterexample_padded_title :
  let E := sample_env (ProcExit 0) (sample_info (PyStr " Clip ") [])
             {[sample_path "mp4"]} (sample_path "mp4") None None in
  fst (download E sample_args (init ∅)) =
  inr (SendFile (Attachment (sample_path "mp4") "Clip.mp4")) /\
  safe_title_of " Clip " ++ "." ++ ext_of (sample_path "mp4") = " Clip .mp4" /\
  "Clip.mp4" <> " Clip .mp4".
Proof.
  intros E. split; [vm_compute; reflexivity | ].
  split; [vm_compute; reflexivity | discriminate].
Qed.

(** C10.  When the title is missing from the metadata, is [None] or is
    empty, the base of the name of the attachment is the word video,
    which the replacement of characters leaves as it is, and the
    extension is appended to it. *)
Theorem C10_default_title (E : env) (args : gmap string string) (fs fs1 : gset string)
    (i : info) (p : string) :
  reaches_extraction E args ->
  extract_info_result E (job_opts E args) (job_url args) true fs = (inr i, fs1) ->
  prepare_filename_result E (job_opts E args) i = inr p ->
  resolved_path fs1 p ∈ fs1 ->
  info_fields i !! "title" = None \/
  info_fields i !! "title" = Some PyNone \/
  info_fields i !! "title" = Some (PyStr "") ->
  let final_path := resolved_path fs1 p in
  let name := "video" ++ "." ++ ext_of final_path in
  job_title i = inr "video" /\
  safe_title_of "video" = "video" /\
  In (EvSendFile final_path name) (trace (snd (download E args (init fs)))) /\
  (send_file_error E final_path = None ->
   fst (download E args (init fs)) = inr (SendFile (Attachment final_path name))).
Proof.
  intros Hr Hx Hp Hin Ht final_path name.
  assert (Hjt : job_title i = inr "video").
  { apply job_title_default. unfold get.
    destruct Ht as [-> | [-> | ->]]; reflexivity. }
  split; [exact Hjt | ]. split; [reflexivity | ].
  exact (download_send_file E args fs fs1 i p "video" Hr Hx Hp Hin Hjt).
Qed.

Lemma C10_default_title_sample :
  let E := sample_env (ProcExit 0) (sample_info PyNone [])
             {[sample_path "webm"]} (sample_path "webm") None None in
  fst (download E sample_args (init ∅)) =
  inr (SendFile (Attachment (sample_path "webm") "video.webm")).
Proof.
  intros E.
  destruct (C10_default_title E sample_args ∅ {[sample_path "webm"]}
              (sample_info PyNone []) (sample_path "webm"))
    as (_ & _ & _ & H).
  - repeat split; vm_compute; reflexivity.
  - vm_compute. reflexivity.
  - reflexivity.
  - apply exists_by_decide. vm_compute. reflexivity.
  - right. left. vm_compute. reflexivity.
  - rewrite H by reflexivity. vm_compute. reflexivity.
Defined.

(** ** Instances of the cleanup *)

(** Two jobs whose extraction produced a file that outlives the
    request.  In the first the engine returns, but the file it wrote is
    neither at the reported path nor at the [.mp4] fallback; in the
    second the engine raises after it has written a part of the
    download.  No hook is registered in either, and the file is still
    there when the request is over. *)
Lemma C1_counterexample_leftover_file :
  (let E := sample_env (ProcExit 0) (sample_info (PyStr "Clip") [])
              {[sample_path "mkv"]} (sample_path "webm") None None in
   exists st,
     handle_request E (download E sample_args) ∅ =
     (inr (JsonError "File not found after download" 500), st) /\
     hooks st = [] /\ sample_path "mkv" ∈ files st) /\
  (let E := failing_env "ERROR: Postprocessing: Conversion failed!"
              {[sample_path "f136.mp4"]} in
   exists st,
     handle_request E (download E sample_args) ∅ =
     (inr (JsonError "Download failed: ERROR: Postprocessing: Conversion failed!" 500), st) /\
     hooks st = [] /\ sample_path "f136.mp4" ∈ files st).
Proof.
  split; intros E.
  - exists (snd (handle_request E (download E sample_args) ∅)).
    split; [vm_compute; reflexivity | ].
    split; [vm_compute; reflexivity | ].
    apply exists_by_decide. vm_compute. reflexivity.
  - exists (snd (handle_request E (download E sample_args) ∅)).
    split; [vm_compute; reflexivity | ].
    split; [vm_compute; reflexivity | ].
    apply exists_by_decide. vm_compute. reflexivity.
Qed.

(** * Further properties of the handlers *)

(** ** Trimming *)

Lemma lstrip_by_all (p : ascii -> bool) (s : string) :
  Forall (fun c => p c = true) (chars s) -> lstrip_by p s = "".
Proof.
  induction s as [ | c s IH]; [reflexivity | ].
  change (chars (String c s)) with (c :: chars s). intros H.
  inversion H as [ | ? ? Hc Hs]; subst. cbn [lstrip_by]. rewrite Hc. now apply IH.
Qed.

Lemma strip_all_space (s : string) : all_space s -> strip s = "".
Proof. intros H. unfold strip. now rewrite lstrip_by_all. Qed.

(** ** Requests without a usable URL *)

Lemma video_info_no_url (E : env) (args : gmap string string) (fs : gset string) :
  nonempty (job_url args) = false ->
  video_info E args (init fs) = (inr (JsonError "No URL provided" 400), init fs).
Proof. intros H. unfold video_info. fold (job_url args). now rewrite H. Qed.

Lemma video_info_invalid_url (E : env) (args : gmap string string) (fs : gset string) :
  nonempty (job_url args) = true ->
  matches YOUTUBE_REGEX (job_url args) = false ->
  video_info E args (init fs) = (inr (JsonError "Invalid YouTube URL" 400), init fs).
Proof.
  intros Hne Hm. unfold video_info. fold (job_url args).
  rewrite Hne, is_valid_youtube_url_str, Hm. reflexivity.
Qed.

Lemma job_url_blank (args : gmap string string) :
  args !! "url" = None \/ (exists s, args !! "url" = Some s /\ all_space s) ->
  nonempty (job_url args) = false.
Proof.
  unfold job_url, args_get. intros [-> | (s & -> & Hs)]; [reflexivity | ].
  now rewrite strip_all_space.
Qed.

(** X1.  A request whose [url] parameter is absent, empty or made of
    whitespace only is answered with the status 400 and "No URL
    provided", and one whose trimmed URL the validator rejects with the
    status 400 and "Invalid YouTube URL"; this holds for the metadata
    and for the download handler, and neither performs any external
    operation, registers a hook or touches a file before it answers. *)
Theorem X1_bad_url_rejected_before_any_call (E : env) (args : gmap string string)
    (fs : gset string) :
  (args !! "url" = None \/ (exists s, args !! "url" = Some s /\ all_space s) ->
   download E args (init fs) = (inr (JsonError "No URL provided" 400), init fs) /\
   video_info E args (init fs) = (inr (JsonError "No URL provided" 400), init fs)) /\
  (nonempty (job_url args) = true -> matches YOUTUBE_REGEX (job_url args) = false ->
   download E args (init fs) = (inr (JsonError "Invalid YouTube URL" 400), init fs) /\
   video_info E args (init fs) = (inr (JsonError "Invalid YouTube URL" 400), init fs)).
Proof.
  split.
  - intros H. apply job_url_blank in H.
    split; [now apply download_no_url | now apply video_info_no_url].
  - intros Hne Hm.
    split; [now apply download_invalid_url | now apply video_info_invalid_url].
Qed.

Lemma X1_bad_url_samples :
  let E := sample_env ProcNotFound (sample_info PyNone []) ∅ "" None None in
  download E {[ "url" := "   " ]} (init ∅) =
  (inr (JsonError "No URL provided" 400), init ∅) /\
  video_info E {[ "url" := " not-a-url " ]} (init ∅) =
  (inr (JsonError "Invalid YouTube URL" 400), init ∅).
Proof.
  intros E. split.
  - apply (proj1 (X1_bad_url_rejected_before_any_call E {[ "url" := "   " ]} ∅)).
    right. exists "   ". split; [vm_compute; reflexivity | ].
    unfold all_space. repeat constructor.
  - apply (proj2 (X1_bad_url_rejected_before_any_call E {[ "url" := " not-a-url " ]} ∅));
      vm_compute; reflexivity.
Defined.

(** ** The probe and the cleanup hook on their own *)

(** X2.  [check_ffmpeg] never raises: it runs [ffmpeg -version] once,
    changes nothing else, and returns [True] exactly when the program
    was found and exited with the code 0. *)
Theorem X2_check_ffmpeg_total (E : env) (st : state) :
  exists b,
    check_ffmpeg E st = (inr b, log (EvSubprocess ffmpeg_argv (ffmpeg_run E)) st) /\
    (b = true <-> ffmpeg_run E = ProcExit 0).
Proof.
  unfold check_ffmpeg, try_except, bind, subprocess_run_check, ret.
  destruct (ffmpeg_run E) as [ | code].
  - exists false. split; [reflexivity | split; discriminate].
  - destruct (Z.eqb_spec code 0) as [-> | Hne].
    + exists true. split; [reflexivity | split; reflexivity].
    + exists false. split; [reflexivity | ]. split; [discriminate | congruence].
Qed.

Lemma removals_app (t u : list event) : removals (t ++ u) = (removals t ++ removals u)%list.
Proof.
  induction t as [ | ev t IH]; [reflexivity | ].
  destruct ev; cbn [app removals]; now rewrite IH.
Qed.

(** X3.  [remove_file] never raises and returns the response it was
    given.  It leaves every other path and the hooks as they are; when
    the file does not exist it does not call [os.remove]; when the file
    exists it calls [os.remove] once, after which the file is gone, or,
    if [os.remove] raised, is still there with the error printed. *)
Theorem X3_remove_file_swallows (E : env) (final_path : string) (r : response)
    (st : state) :
  exists st',
    remove_file E final_path r st = (inr r, st') /\
    hooks st' = hooks st /\
    (forall q, q <> final_path -> (q ∈ files st' <-> q ∈ files st)) /\
    (final_path ∉ files st ->
     files st' = files st /\ removals (trace st') = removals (trace st)) /\
    (final_path ∈ files st ->
     removals (trace st') = (removals (trace st) ++ [final_path])%list /\
     match os_remove_error E final_path with
     | None => final_path ∉ files st'
     | Some e => files st' = files st /\
                 In (EvPrint ("Cleanup error: " ++ e)) (trace st')
     end).
Proof.
  rewrite remove_file_run. eexists. split; [reflexivity | ].
  destruct (bool_decide (final_path ∈ files st)) eqn:Hin.
  - apply bool_decide_eq_true_1 in Hin.
    destruct (os_remove_error E final_path) as [e | ]; cbn [files trace hooks];
      (split; [reflexivity | ]); (split; [ | split; [tauto | ]]).
    + tauto.
    + intros _. rewrite removals_app. split; [reflexivity | ].
      split; [reflexivity | ]. apply in_or_app. right. simpl. auto.
    + intros q Hq. rewrite elem_of_difference, elem_of_singleton. tauto.
    + intros _. rewrite removals_app. split; [reflexivity | ].
      rewrite elem_of_difference, elem_of_singleton. tauto.
  - apply bool_decide_eq_false_1 in Hin. cbn [files trace hooks].
    split; [reflexivity | ]. split; [tauto | ]. split; [ | tauto].
    intros _. rewrite removals_app. cbn [removals]. now rewrite app_nil_r.
Qed.

Lemma X3_remove_file_sample :
  let E := sample_env (ProcExit 0) (sample_info PyNone []) ∅ "" (Some "[Errno 13] Permission denied") None in
  let st := init {[sample_path "mp4"]} in
  exists st',
    remove_file E (sample_path "mp4") JsonStatusOk st = (inr JsonStatusOk, st') /\
    files st' = files st /\
    In (EvPrint "Cleanup error: [Errno 13] Permission denied") (trace st').
Proof.
  intros E st.
  destruct (X3_remove_file_swallows E (sample_path "mp4") JsonStatusOk st)
    as (st' & Heq & _ & _ & _ & H).
  exists st'. split; [exact Heq | ].
  destruct H as [_ H]; [apply exists_by_decide; vm_compute; reflexivity | ].
  exact H.
Defined.

(** ** Every way a download request can end *)

(** The outcome of the view function when the engine has returned [i]
    and reported [p], as [download_resolution] gives it. *)
Lemma download_resolution_cases (E : env) (args : gmap string string)
    (fs fs1 : gset string) (i : info) (p : string) :
  reaches_extraction E args ->
  extract_info_result E (job_opts E args) (job_url args) true fs = (inr i, fs1) ->
  prepare_filename_result E (job_opts E args) i = inr p ->
  let final_path := resolved_path fs1 p in
  let t := resolution_trace E args fs1 p in
  ((final_path ∉ fs1) /\
   download E args (init fs) =
   (inr (JsonError "File not found after download" 500),
    {| files := fs1; trace := t; hooks := [] |})) \/
  ((final_path ∈ fs1) /\ exists e,
     job_title i = inl e /\
     download E args (init fs) =
     (inr (JsonError ("Download failed: " ++ e) 500),
      {| files := fs1; trace := t; hooks := [] |})) \/
  ((final_path ∈ fs1) /\ exists title e,
     job_title i = inr title /\ send_file_error E final_path = Some e /\
     download E args (init fs) =
     (inr (JsonError ("Download failed: " ++ e) 500),
      {| files := fs1;
         trace := (t ++ [EvSendFile final_path
                           (safe_title_of title ++ "." ++ ext_of final_path)])%list;
         hooks := [RemoveFile final_path] |})) \/
  ((final_path ∈ fs1) /\ exists title,
     job_title i = inr title /\ send_file_error E final_path = None /\
     download E args (init fs) =
     (inr (SendFile (Attachment final_path
                       (safe_title_of title ++ "." ++ ext_of final_path))),
      {| files := fs1;
         trace := (t ++ [EvSendFile final_path
                           (safe_title_of title ++ "." ++ ext_of final_path)])%list;
         hooks := [RemoveFile final_path] |})).
Proof.
  intros Hr Hx Hp final_path t.
  rewrite (download_resolution E args fs fs1 i p Hr Hx Hp). cbv zeta.
  fold final_path. fold t.
  destruct (bool_decide (final_path ∈ fs1)) eqn:Hin.
  - apply bool_decide_eq_true_1 in Hin. right.
    destruct (job_title i) as [e | title]; [left; eauto | right].
    destruct (send_file_error E final_path) as [e | ]; [left | right]; eauto 10.
  - apply bool_decide_eq_false_1 in Hin. left. auto.
Qed.

Lemma resolution_trace_sends (E : env) (args : gmap string string) (fs : gset string)
    (p : string) :
  sends (resolution_trace E args fs p) = [] /\
  removals (resolution_trace E args fs p) = [].
Proof.
  unfold resolution_trace. destruct (bool_decide (p ∈ fs)); split; reflexivity.
Qed.

Lemma sends_app (t u : list event) : sends (t ++ u) = (sends t ++ sends u)%list.
Proof.
  induction t as [ | ev t IH]; [reflexivity | ].
  destruct ev; cbn [app sends]; now rewrite IH.
Qed.

(** X5.  The download handler never raises: every request is answered.
    The answer has the status 400 exactly when the trimmed URL is empty
    or is rejected by the validator; otherwise it has the status 500 or
    is an attachment. *)
Theorem X5_download_always_answers (E : env) (args : gmap string string)
    (fs : gset string) :
  exists r st,
    download E args (init fs) = (inr r, st) /\
    (status r = 400 <->
     nonempty (job_url args) = false \/ matches YOUTUBE_REGEX (job_url args) = false) /\
    (status r = 400 \/ status r = 500 \/ exists f, r = SendFile f).
Proof.
  destruct (reaches_or_not E args) as [Hr | [H | [[H1 H2] | (H1 & H2 & H3)]]].
  - assert (Hok : ~ (nonempty (job_url args) = false \/
                     matches YOUTUBE_REGEX (job_url args) = false)).
    { destruct Hr as (H1 & H2 & _). intros [H | H]; congruence. }
    destruct (extract_info_result E (job_opts E args) (job_url args) true fs)
      as [[e | i] fs1] eqn:Hx.
    { rewrite (download_engine_raised _ _ _ _ _ Hr Hx). eexists _, _.
      split; [reflexivity | ]. cbn [status]. split; [split; [discriminate | tauto] | auto]. }
    destruct (prepare_filename_result E (job_opts E args) i) as [e | p] eqn:Hp.
    { rewrite (download_prepare_raised _ _ _ _ _ _ Hr Hx Hp). eexists _, _.
      split; [reflexivity | ]. cbn [status]. split; [split; [discriminate | tauto] | auto]. }
    destruct (download_resolution_cases E args fs fs1 i p Hr Hx Hp)
      as [[_ ->] | [(_ & e & _ & ->) | [(_ & t & e & _ & _ & ->) | (_ & t & _ & _ & ->)]]];
      eexists _, _; (split; [reflexivity | ]); cbn [status];
      (split; [split; [discriminate | tauto] | eauto]).
  - rewrite (download_no_url _ _ _ H). eexists _, _. split; [reflexivity | ].
    cbn [status]. split; [tauto | auto].
  - rewrite (download_invalid_url _ _ _ H1 H2). eexists _, _. split; [reflexivity | ].
    cbn [status]. split; [tauto | auto].
  - rewrite (download_probe_failed _ _ _ H1 H2 H3). eexists _, _. split; [reflexivity | ].
    cbn [status]. split; [ | auto]. split; [discriminate | ]. intros [H | H]; congruence.
Qed.

(** X6.  The download handler registers at most one hook, and it
    registers one exactly when it calls [send_file]: either no hook is
    registered and [send_file] is not called, or the hook is the
    removal of the one path given to [send_file], a path that exists
    when the view function returns.  The view function itself removes
    nothing. *)
Theorem X6_hook_iff_send_file (E : env) (args : gmap string string) (fs : gset string) :
  let st := snd (download E args (init fs)) in
  removals (trace st) = [] /\
  ((hooks st = [] /\ sends (trace st) = []) \/
   (exists final_path name,
      hooks st = [RemoveFile final_path] /\
      sends (trace st) = [(final_path, name)] /\
      final_path ∈ files st)).
Proof.
  cbv zeta.
  destruct (reaches_or_not E args) as [Hr | [H | [[H1 H2] | (H1 & H2 & H3)]]].
  - destruct (extract_info_result E (job_opts E args) (job_url args) true fs)
      as [[e | i] fs1] eqn:Hx.
    { rewrite (download_engine_raised _ _ _ _ _ Hr Hx). split; [reflexivity | now left]. }
    destruct (prepare_filename_result E (job_opts E args) i) as [e | p] eqn:Hp.
    { rewrite (download_prepare_raised _ _ _ _ _ _ Hr Hx Hp).
      split; [reflexivity | now left]. }
    destruct (resolution_trace_sends E args fs1 p) as [Hs Hrm].
    destruct (download_resolution_cases E args fs fs1 i p Hr Hx Hp)
      as [[_ ->] | [(_ & e & _ & ->) | [(Hin & t & e & _ & _ & ->)
                                        | (Hin & t & _ & _ & ->)]]];
      cbn [snd files trace hooks]; rewrite ?sends_app, ?removals_app, Hs, Hrm;
      (split; [reflexivity | ]); [now left | now left | right | right];
      eexists _, _; (split; [reflexivity | split; [reflexivity | exact Hin]]).
  - rewrite (download_no_url _ _ _ H). split; [reflexivity | now left].
  - rewrite (download_invalid_url _ _ _ H1 H2). split; [reflexivity | now left].
  - rewrite (download_probe_failed _ _ _ H1 H2 H3). split; [reflexivity | now left].
Qed.

(** ** The request cycle of a download *)

Lemma download_returns (E : env) (args : gmap string string) (fs : gset string) :
  exists r st, download E args (init fs) = (inr r, st).
Proof.
  destruct (reaches_or_not E args) as [Hr | [H | [[H1 H2] | (H1 & H2 & H3)]]].
  - destruct (extract_info_result E (job_opts E args) (job_url args) true fs)
      as [[e | i] fs1] eqn:Hx.
    { rewrite (download_engine_raised _ _ _ _ _ Hr Hx). eauto. }
    destruct (prepare_filename_result E (job_opts E args) i) as [e | p] eqn:Hp.
    { rewrite (download_prepare_raised _ _ _ _ _ _ Hr Hx Hp). eauto. }
    destruct (download_resolution_cases E args fs fs1 i p Hr Hx Hp)
      as [[_ ->] | [(_ & e & _ & ->) | [(_ & t & e & _ & _ & ->) | (_ & t & _ & _ & ->)]]];
      eauto.
  - rewrite (download_no_url _ _ _ H). eauto.
  - rewrite (download_invalid_url _ _ _ H1 H2). eauto.
  - rewrite (download_probe_failed _ _ _ H1 H2 H3). eauto.
Qed.

Lemma remove_file_frame (E : env) (p : string) (r : response) (st : state) :
  exists st',
    remove_file E p r st = (inr r, st') /\
    hooks st' = hooks st /\
    (forall q, q ∈ files st' -> q ∈ files st) /\
    (forall q, q ∈ files st -> q <> p -> q ∈ files st').
Proof.
  rewrite remove_file_run. eexists. split; [reflexivity | ].
  destruct (bool_decide (p ∈ files st)); [destruct (os_remove_error E p) | ];
    cbn [files hooks]; (split; [reflexivity | ]);
    try (split; intros q; rewrite elem_of_difference, elem_of_singleton; tauto);
    split; auto.
Qed.

Lemma run_hooks_frame (E : env) (hs : list hook) (r : response) (st : state) :
  exists st',
    run_hooks E hs r st = (inr r, st') /\
    hooks st' = hooks st /\
    (forall q, q ∈ files st' -> q ∈ files st) /\
    (forall q, q ∈ files st -> q ∉ hook_paths hs -> q ∈ files st').
Proof.
  revert st. induction hs as [ | [p] hs IH]; intros st.
  - exists st. cbn [run_hooks ret]. auto.
  - cbn [run_hooks run_hook]. unfold bind.
    destruct (remove_file_frame E p r st) as (st1 & -> & Hh1 & Hsub1 & Hkeep1).
    destruct (IH st1) as (st2 & -> & Hh2 & Hsub2 & Hkeep2).
    exists st2. split; [reflexivity | ]. split; [congruence | ]. split; [auto | ].
    intros q Hq Hn. cbn [hook_paths map] in Hn. rewrite not_elem_of_cons in Hn.
    destruct Hn as [Hne Hn]. apply Hkeep2; [ | exact Hn]. now apply Hkeep1.
Qed.

(** X4.  Running the registered hooks after the view function of a
    download leaves its response as it is, creates no file, and removes
    no file other than the one whose removal was registered. *)
Theorem X4_request_removes_only_the_registered_file (E : env)
    (args : gmap string string) (fs : gset string) :
  let view := download E args (init fs) in
  let out := handle_request E (download E args) fs in
  fst out = fst view /\
  (forall q, q ∈ files (snd out) -> q ∈ files (snd view)) /\
  (forall q, q ∈ files (snd view) -> q ∉ hook_paths (hooks (snd view)) ->
             q ∈ files (snd out)).
Proof.
  cbv zeta. unfold handle_request.
  destruct (download_returns E args fs) as (r & st & ->). cbn [fst snd].
  destruct (run_hooks_frame E (hooks st) r st) as (st' & -> & _ & Hsub & Hkeep).
  cbn [fst snd]. auto.
Qed.

Lemma X4_request_sample :
  let E := sample_env (ProcExit 0) (sample_info (PyStr "Clip") [])
             {[sample_path "mp4"; sample_path "f251.webm"]} (sample_path "mp4") None None in
  sample_path "f251.webm" ∈ files (snd (handle_request E (download E sample_args) ∅)).
Proof.
  intros E.
  apply (proj2 (proj2 (X4_request_removes_only_the_registered_file E sample_args ∅))).
  - apply exists_by_decide. vm_compute. reflexivity.
  - replace (hooks (snd (download E sample_args (init ∅))))
      with [RemoveFile (sample_path "mp4")] by (vm_compute; reflexivity).
    cbn [hook_paths map]. rewrite not_elem_of_cons. split; [ | apply not_elem_of_nil].
    intros H. vm_compute in H. discriminate H.
Defined.

(** ** Errors between the probe and the transfer *)

Lemma handle_request_no_hook (E : env) (view : M response) (fs : gset string)
    (r : response) (st : state) :
  view (init fs) = (inr r, st) -> hooks st = [] ->
  handle_request E view fs = (inr r, st).
Proof. intros Hv Hh. unfold handle_request. rewrite Hv, Hh. reflexivity. Qed.

(** X7.  When the engine raises, or returns and [prepare_filename]
    raises, the request is answered with the status 500 and "Download
    failed: " followed by the text of the exception.  The engine is not
    called again, no path is probed or removed, no hook is registered,
    and the files are left as the engine left them. *)
Theorem X7_engine_error_reported (E : env) (args : gmap string string)
    (fs fs1 : gset string) :
  reaches_extraction E args ->
  (forall e,
     extract_info_result E (job_opts E args) (job_url args) true fs = (inl e, fs1) ->
     handle_request E (download E args) fs =
     (inr (JsonError ("Download failed: " ++ e) 500),
      {| files := fs1;
         trace := [EvSubprocess ffmpeg_argv (ProcExit 0); EvUuid (uuid4_hex E);
                   EvExtract (job_opts E args) (job_url args) true];
         hooks := [] |})) /\
  (forall i e,
     extract_info_result E (job_opts E args) (job_url args) true fs = (inr i, fs1) ->
     prepare_filename_result E (job_opts E args) i = inl e ->
     handle_request E (download E args) fs =
     (inr (JsonError ("Download failed: " ++ e) 500),
      {| files := fs1;
         trace := [EvSubprocess ffmpeg_argv (ProcExit 0); EvUuid (uuid4_hex E);
                   EvExtract (job_opts E args) (job_url args) true; EvPrepareFilename];
         hooks := [] |})).
Proof.
  intros Hr. split.
  - intros e Hx. eapply handle_request_no_hook; [ | reflexivity].
    now apply download_engine_raised.
  - intros i e Hx Hp. eapply handle_request_no_hook; [ | reflexivity].
    now apply (download_prepare_raised E args fs fs1 i e).
Qed.

Lemma X7_engine_error_sample :
  let E := failing_env "ERROR: Video unavailable" ∅ in
  fst (handle_request E (download E sample_args) ∅) =
  inr (JsonError "Download failed: ERROR: Video unavailable" 500).
Proof.
  intros E.
  rewrite (proj1 (X7_engine_error_reported E sample_args ∅ ∅
                    ltac:(repeat split; vm_compute; reflexivity))
             "ERROR: Video unavailable").
  - reflexivity.
  - vm_compute. reflexivity.
Defined.

(** X8.  When the file is resolved but the title in the metadata is a
    value other than a text that is true in a boolean context (a
    number, say), [strip] raises before anything is registered: the
    answer is the status 500 with "Download failed: " and the attribute
    error, [send_file] is not called, and the resolved file is still
    there when the request is over. *)
Theorem X8_non_text_title (E : env) (args : gmap string string) (fs fs1 : gset string)
    (i : info) (p : string) (v : pyval) :
  reaches_extraction E args ->
  extract_info_result E (job_opts E args) (job_url args) true fs = (inr i, fs1) ->
  prepare_filename_result E (job_opts E args) i = inr p ->
  resolved_path fs1 p ∈ fs1 ->
  get (info_fields i) "title" = v -> truthy v = true -> (forall s, v <> PyStr s) ->
  handle_request E (download E args) fs =
  (inr (JsonError ("Download failed: '" ++ type_name v ++
                   "' object has no attribute 'strip'") 500),
   {| files := fs1; trace := resolution_trace E args fs1 p; hooks := [] |}).
Proof.
  intros Hr Hx Hp Hin Hv Ht Hns.
  eapply handle_request_no_hook; [ | reflexivity].
  rewrite (download_resolution E args fs fs1 i p Hr Hx Hp). cbv zeta.
  rewrite (bool_decide_eq_true_2 _ Hin). unfold job_title, py_or. rewrite Hv, Ht.
  destruct v; try reflexivity. now contradiction (Hns s).
Qed.

Lemma X8_non_text_title_sample :
  let E := sample_env (ProcExit 0) (sample_info (PyInt 2024) [])
             {[sample_path "mp4"]} (sample_path "mp4") None None in
  exists st,
    handle_request E (download E sample_args) ∅ =
    (inr (JsonError "Download failed: 'int' object has no attribute 'strip'" 500), st) /\
    files st = {[sample_path "mp4"]}.
Proof.
  intros E.
  rewrite (X8_non_text_title E sample_args ∅ ({[sample_path "mp4"]})
             (sample_info (PyInt 2024) []) (sample_path "mp4") (PyInt 2024)).
  - eexists. split; reflexivity.
  - repeat split; vm_compute; reflexivity.
  - vm_compute. reflexivity.
  - reflexivity.
  - apply exists_by_decide. vm_compute. reflexivity.
  - vm_compute. reflexivity.
  - reflexivity.
  - discriminate.
Defined.

(** X9.  A title made of whitespace only is not replaced by the default:
    it is trimmed to the empty text, and the name given to [send_file]
    is a dot followed by the extension. *)
Theorem X9_blank_title (E : env) (args : gmap string string) (fs fs1 : gset string)
    (i : info) (p title : string) :
  reaches_extraction E args ->
  extract_info_result E (job_opts E args) (job_url args) true fs = (inr i, fs1) ->
  prepare_filename_result E (job_opts E args) i = inr p ->
  resolved_path fs1 p ∈ fs1 ->
  get (info_fields i) "title" = PyStr title -> title <> "" -> all_space title ->
  let final_path := resolved_path fs1 p in
  sends (trace (snd (download E args (init fs)))) = [(final_path, "." ++ ext_of final_path)] /\
  (send_file_error E final_path = None ->
   fst (download E args (init fs)) =
   inr (SendFile (Attachment final_path ("." ++ ext_of final_path)))).
Proof.
  intros Hr Hx Hp Hin Ht Hne Hsp final_path.
  pose proof (job_title_str i title Ht Hne) as Hjt. rewrite (strip_all_space _ Hsp) in Hjt.
  rewrite (download_resolution E args fs fs1 i p Hr Hx Hp). cbv zeta. fold final_path.
  rewrite (bool_decide_eq_true_2 _ Hin), Hjt. cbn [fst snd trace].
  change (safe_title_of "" ++ "." ++ ext_of final_path) with ("." ++ ext_of final_path).
  rewrite sends_app, (proj1 (resolution_trace_sends E args fs1 p)). split; [reflexivity | ].
  intros ->. reflexivity.
Qed.

Lemma X9_blank_title_sample :
  let E := sample_env (ProcExit 0) (sample_info (PyStr "  ") [])
             {[sample_path "mp4"]} (sample_path "mp4") None None in
  fst (download E sample_args (init ∅)) =
  inr (SendFile (Attachment (sample_path "mp4") ".mp4")).
Proof.
  intros E.
  destruct (X9_blank_title E sample_args ∅ {[sample_path "mp4"]}
              (sample_info (PyStr "  ") []) (sample_path "mp4") "  ") as [_ H].
  - repeat split; vm_compute; reflexivity.
  - vm_compute. reflexivity.
  - reflexivity.
  - apply exists_by_decide. vm_compute. reflexivity.
  - vm_compute. reflexivity.
  - discriminate.
  - unfold all_space. repeat constructor.
  - rewrite H by reflexivity. vm_compute. reflexivity.
Defined.

(** ** [os.path.splitext] on every path *)

Section SplitextSpec.

Lemma string_app_empty (s : string) : s ++ "" = s.
Proof.
  induction s as [ | c s IH]; [reflexivity | ].
  change (String c (s ++ "") = String c s). now rewrite IH.
Qed.

Lemma string_app_inv_head (a b c : string) : a ++ b = a ++ c -> b = c.
Proof.
  induction a as [ | x a IH]; [auto | ].
  change (String x (a ++ b) = String x (a ++ c) -> b = c). intros [= H]. auto.
Qed.

(** Where the last occurrence of a character is. *)
Lemma rfind_from_spec (c : ascii) (s : string) (i : Z) :
  0 <= i ->
  (rfind_from c s i = -1 /\ ~ In c (chars s)) \/
  (exists a b, s = a ++ String c b /\
               rfind_from c s i = i + Z.of_nat (String.length a) /\
               ~ In c (chars b)).
Proof.
  revert i. induction s as [ | x s IH]; intros i Hi.
  - left. split; [reflexivity | intros []].
  - cbn [rfind_from].
    destruct (IH (i + 1) ltac:(lia)) as [[Hr Hn] | (a & b & -> & Hr & Hn)].
    + rewrite Hr. cbn [Z.leb Z.compare].
      destruct (Ascii.eqb_spec x c) as [-> | Hne].
      * right. exists "", s. split; [reflexivity | ]. split; [simpl; lia | assumption].
      * left. split; [reflexivity | ].
        change (chars (String x s)) with (x :: chars s). intros [H | H]; tauto.
    + right. exists (String x a), b. split; [reflexivity | ]. split; [ | assumption].
      rewrite Hr. destruct (Z.leb_spec 0 (i + 1 + Z.of_nat (String.length a)));
        cbn [String.length]; lia.
Qed.

Lemma rfind_from_ge_in (c : ascii) (a b : string) (i : Z) :
  0 <= i -> In c (chars b) ->
  i + Z.of_nat (String.length a) <= rfind_from c (a ++ b) i.
Proof.
  revert i. induction a as [ | x a IH]; intros i Hi Hin.
  - change ("" ++ b) with b.
    destruct (rfind_from_spec c b i Hi) as [[_ Hn] | (a' & b' & _ & -> & _)];
      [contradiction | simpl; lia].
  - change (String x a ++ b) with (String x (a ++ b)). cbn [rfind_from String.length].
    specialize (IH (i + 1) ltac:(lia) Hin).
    destruct (Z.leb_spec 0 (rfind_from c (a ++ b) (i + 1))); lia.
Qed.

Lemma splitext_loop_result (p : string) (dotIndex : Z) (n : nat) (filenameIndex : Z) :
  OsPath.splitext_loop p dotIndex n filenameIndex = (p, "") \/
  OsPath.splitext_loop p dotIndex n filenameIndex =
  (slice_to p dotIndex, slice_from p dotIndex).
Proof.
  revert filenameIndex. induction n as [ | n IH]; intros k; cbn [OsPath.splitext_loop].
  - now left.
  - destruct (negb (String.eqb (char_at p k) ".")); [now right | apply IH].
Qed.

(** The two parts that [splitext] returns make up the path, and the
    second is empty or is a dot followed by characters among which
    there is neither a dot nor a slash. *)
Lemma splitext_spec (p : string) :
  fst (OsPath.splitext p) ++ snd (OsPath.splitext p) = p /\
  (snd (OsPath.splitext p) = "" \/
   exists e, snd (OsPath.splitext p) = String "." e /\
             ~ In "."%char (chars e) /\ ~ In "/"%char (chars e)).
Proof.
  unfold OsPath.splitext.
  destruct (Z.ltb_spec (rfind "/" p) (rfind "." p)) as [Hlt | Hge];
    [ | split; [apply string_app_empty | now left]].
  destruct (splitext_loop_result p (rfind "." p)
              (Z.to_nat (rfind "." p - (rfind "/" p + 1))) (rfind "/" p + 1))
    as [-> | ->]; [split; [apply string_app_empty | now left] | ].
  unfold rfind in *.
  destruct (rfind_from_spec "." p 0 ltac:(lia)) as [[Hr _] | (a & b & Hp & Hr & Hn)].
  { destruct (rfind_from_spec "/" p 0 ltac:(lia)) as [[Hs _] | (a' & b' & _ & Hs & _)]; lia. }
  rewrite Hr. cbn [fst snd]. unfold slice_to, slice_from.
  replace (Z.to_nat (0 + Z.of_nat (String.length a))) with (String.length a) by lia.
  assert (Hroot : substring 0 (String.length a) p = a).
  { rewrite Hp. apply substring_prefix. }
  assert (Hext : substring (String.length a) (String.length p - String.length a) p
                 = String "." b).
  { rewrite Hp. rewrite <- (Nat.add_0_r (String.length a)) at 1.
    rewrite substring_skip, string_length_app.
    replace (String.length a + String.length (String "." b) - String.length a)%nat
      with (String.length (String "." b)) by lia.
    apply substring_all. }
  rewrite Hroot, Hext. split; [now symmetry | ]. right. exists b.
  split; [reflexivity | ]. split; [assumption | ].
  intros Hin.
  assert (Hin' : In "/"%char (chars (String "." b))) by now right.
  pose proof (rfind_from_ge_in "/" a (String "." b) 0 ltac:(lia) Hin') as Hle.
  rewrite <- Hp in Hle. lia.
Qed.

Lemma ext_of_spec (p : string) :
  ext_of p <> "" /\ ~ In "."%char (chars (ext_of p)) /\ ~ In "/"%char (chars (ext_of p)).
Proof.
  unfold ext_of. destruct (splitext_spec p) as [_ [-> | (e & -> & Hdot & Hsep)]].
  - cbn. repeat split; try discriminate;
      intros H; repeat (destruct H as [H | H]; [discriminate H | ]); exact H.
  - change (lstrip_dots (String "." e)) with (lstrip_dots e).
    rewrite lstrip_dots_no_dot by assumption. unfold nonempty.
    destruct (String.eqb_spec e "") as [-> | Hne]; cbn [negb].
    + repeat split; try discriminate;
        intros H; repeat (destruct H as [H | H]; [discriminate H | ]); exact H.
    + auto.
Qed.

Lemma alt_path_fixed (p : string) : alt_path p = p <-> snd (OsPath.splitext p) = ".mp4".
Proof.
  unfold alt_path. destruct (splitext_spec p) as [Hp _]. split.
  - intros H. symmetry. apply (string_app_inv_head (fst (OsPath.splitext p))).
    now rewrite H, Hp.
  - intros H. now rewrite <- H.
Qed.

End SplitextSpec.

(** ** The name given to [send_file] *)

Lemma char_not_elem_by_decide (c : ascii) (cs : list ascii) :
  bool_decide (c ∈ cs) = false -> c ∉ cs.
Proof. apply bool_decide_eq_false_1. Qed.

Lemma char_elem_by_decide (c : ascii) (cs : list ascii) :
  bool_decide (c ∈ cs) = true -> c ∈ cs.
Proof. apply bool_decide_eq_true_1. Qed.

Lemma not_exists_by_decide (p : string) (fs : gset string) :
  bool_decide (p ∈ fs) = false -> p ∉ fs.
Proof. apply bool_decide_eq_false_1. Qed.

Lemma safe_title_of_safe (t : string) :
  Forall (fun c => c ∉ unsafe_chars) (chars (safe_title_of t)).
Proof.
  rewrite safe_title_of_chars. apply List.Forall_forall. intros c Hc.
  apply List.in_map_iff in Hc as (x & <- & _). unfold replace_unsafe.
  destruct (bool_decide (x ∈ unsafe_chars)) eqn:Hx.
  - apply char_not_elem_by_decide. vm_compute. reflexivity.
  - now apply char_not_elem_by_decide.
Qed.

Lemma download_sends_inv (E : env) (args : gmap string string) (fs : gset string)
    (final_path name : string) :
  In (final_path, name) (sends (trace (snd (download E args (init fs))))) ->
  exists title, name = safe_title_of title ++ "." ++ ext_of final_path.
Proof.
  destruct (reaches_or_not E args) as [Hr | [H | [[H1 H2] | (H1 & H2 & H3)]]].
  - destruct (extract_info_result E (job_opts E args) (job_url args) true fs)
      as [[e | i] fs1] eqn:Hx.
    { rewrite (download_engine_raised _ _ _ _ _ Hr Hx). intros []. }
    destruct (prepare_filename_result E (job_opts E args) i) as [e | p] eqn:Hp.
    { rewrite (download_prepare_raised _ _ _ _ _ _ Hr Hx Hp). intros []. }
    destruct (resolution_trace_sends E args fs1 p) as [Hs _].
    destruct (download_resolution_cases E args fs fs1 i p Hr Hx Hp)
      as [[_ ->] | [(_ & e & _ & ->) | [(_ & t & e & _ & _ & ->) | (_ & t & _ & _ & ->)]]];
      cbn [snd trace]; rewrite ?sends_app, Hs; cbn [sends app];
      [intros [] | intros [] | | ]; intros [[= <- <-] | []]; eauto.
  - rewrite (download_no_url _ _ _ H). intros [].
  - rewrite (download_invalid_url _ _ _ H1 H2). intros [].
  - rewrite (download_probe_failed _ _ _ H1 H2 H3). intros [].
Qed.

(** X10.  Every name that the download handler gives to [send_file] is
    a base, a dot and an extension: the base contains none of the nine
    replaced characters, the extension is not empty and contains no
    dot, and the whole name contains no slash. *)
Theorem X10_attachment_name_well_formed (E : env) (args : gmap string string)
    (fs : gset string) (final_path name : string) :
  In (final_path, name) (sends (trace (snd (download E args (init fs))))) ->
  exists base ext,
    name = base ++ "." ++ ext /\
    Forall (fun c => c ∉ unsafe_chars) (chars base) /\
    ext <> "" /\ ~ In "."%char (chars ext) /\
    ~ In "/"%char (chars name).
Proof.
  intros H. apply download_sends_inv in H as (title & ->).
  destruct (ext_of_spec final_path) as (Hne & Hdot & Hsep).
  exists (safe_title_of title), (ext_of final_path).
  split; [reflexivity | ]. split; [apply safe_title_of_safe | ].
  split; [assumption | ]. split; [assumption | ].
  rewrite !chars_app. change (chars ".") with ["."%char].
  intros Hin. apply in_app_or in Hin as [Hin | [Hin | Hin]].
  - pose proof (safe_title_of_safe title) as Hsafe.
    rewrite List.Forall_forall in Hsafe. apply (Hsafe _ Hin).
    apply char_elem_by_decide. vm_compute. reflexivity.
  - discriminate Hin.
  - tauto.
Qed.

Lemma X10_attachment_name_sample :
  let E := sample_env (ProcExit 0) (sample_info (PyStr "a/b\c") [])
             {[sample_path "mp4"]} (sample_path "mp4") None None in
  ~ In "/"%char (chars "a_b_c.mp4").
Proof.
  intros E.
  destruct (X10_attachment_name_well_formed E sample_args ∅ (sample_path "mp4") "a_b_c.mp4")
    as (base & ext & _ & _ & _ & _ & H).
  - vm_compute. left. reflexivity.
  - exact H.
Defined.

(** X11.  When the path that the engine reports has the extension
    [.mp4], the fallback path is that same path; so if it does not
    exist the job ends with "File not found after download", whatever
    else the engine has written. *)
Theorem X11_missing_mp4_has_no_fallback (E : env) (args : gmap string string)
    (fs fs1 : gset string) (i : info) (p : string) :
  reaches_extraction E args ->
  extract_info_result E (job_opts E args) (job_url args) true fs = (inr i, fs1) ->
  prepare_filename_result E (job_opts E args) i = inr p ->
  snd (OsPath.splitext p) = ".mp4" -> p ∉ fs1 ->
  alt_path p = p /\
  handle_request E (download E args) fs =
  (inr (JsonError "File not found after download" 500),
   {| files := fs1; trace := resolution_trace E args fs1 p; hooks := [] |}).
Proof.
  intros Hr Hx Hp Hext Hno. apply alt_path_fixed in Hext. split; [exact Hext | ].
  eapply handle_request_no_hook; [ | reflexivity].
  assert (Hres : resolved_path fs1 p = p).
  { unfold resolved_path. rewrite Hext. now destruct (bool_decide (p ∈ fs1)). }
  destruct (download_resolution_cases E args fs fs1 i p Hr Hx Hp)
    as [[_ ->] | [(Hin & _) | [(Hin & _) | (Hin & _)]]];
    [reflexivity | | | ]; rewrite Hres in Hin; contradiction.
Qed.

Lemma X11_missing_mp4_sample :
  let E := sample_env (ProcExit 0) (sample_info (PyStr "Clip") [])
             {[sample_path "webm"]} (sample_path "mp4") None None in
  fst (handle_request E (download E sample_args) ∅) =
  inr (JsonError "File not found after download" 500).
Proof.
  intros E.
  destruct (X11_missing_mp4_has_no_fallback E sample_args ∅ {[sample_path "webm"]}
              (sample_info (PyStr "Clip") []) (sample_path "mp4")) as [_ ->].
  - repeat split; vm_compute; reflexivity.
  - vm_compute. reflexivity.
  - reflexivity.
  - vm_compute. reflexivity.
  - apply not_exists_by_decide. vm_compute. reflexivity.
  - reflexivity.
Defined.

(** ** The output template of a job *)

Lemma string_app_inv_tail (a b c : string) : a ++ c = b ++ c -> a = b.
Proof.
  intros H. apply chars_inj. apply (f_equal chars) in H. rewrite !chars_app in H.
  now apply app_inv_tail in H.
Qed.

Lemma prefix_sep_app (u s : string) :
  String.prefix "/" u = false -> String.prefix "/" s = false ->
  String.prefix "/" (u ++ s) = false.
Proof.
  destruct u as [ | c u]; [auto | ]. intros H _.
  change (String c u ++ s) with (String c (u ++ s)).
  cbn [String.prefix] in *. destruct (ascii_dec "/" c); [ | reflexivity].
  destruct u; discriminate H.
Qed.

Lemma ends_with_sep_last_char (s : string) :
  OsPath.ends_with_sep s = true <-> last_char s = Some "/"%char.
Proof.
  induction s as [ | c s IH]; [split; discriminate | ].
  destruct s as [ | d s].
  - cbn [OsPath.ends_with_sep last_char]. rewrite Ascii.eqb_eq.
    split; [now intros -> | now intros [= ->]].
  - exact IH.
Qed.

Lemma join_relative (a b : string) :
  String.prefix "/" b = false ->
  ((a = "" \/ last_char a = Some "/"%char) -> OsPath.join a b = a ++ b) /\
  (a <> "" -> last_char a <> Some "/"%char -> OsPath.join a b = a ++ "/" ++ b).
Proof.
  intros Hb. unfold OsPath.join. rewrite Hb. split.
  - intros [-> | Hl]; [reflexivity | ].
    apply ends_with_sep_last_char in Hl. rewrite Hl. now rewrite orb_true_r.
  - intros Hne Hl. destruct (String.eqb_spec a "") as [-> | _]; [contradiction | ].
    destruct (OsPath.ends_with_sep a) eqn:Hs; [ | reflexivity].
    apply ends_with_sep_last_char in Hs. contradiction.
Qed.

(** X12.  A job that passes the URL checks and the ffmpeg probe calls
    the engine once, and the [outtmpl] option of that call is built
    from the download folder and the job identifier, which does not
    begin with a slash (a hex string never does): when the folder is
    empty or ends with a slash it is the folder, the identifier and the
    extension placeholder; otherwise a slash is put between the folder
    and the identifier.  Two jobs of one folder have the same template
    only if they have the same identifier. *)
Theorem X12_output_template_per_identifier (E : env) (args : gmap string string)
    (fs : gset string) :
  String.prefix "/" (uuid4_hex E) = false ->
  let folder := DOWNLOAD_FOLDER E in
  let uid := uuid4_hex E in
  (reaches_extraction E args ->
   exists o,
     extractions (trace (snd (download E args (init fs)))) = [(o, job_url args, true)] /\
     identifiers (trace (snd (download E args (init fs)))) = [uid] /\
     o !! "outtmpl" = Some (PyStr (job_outtmpl E))) /\
  ((folder = "" \/ last_char folder = Some "/"%char) ->
   job_outtmpl E = folder ++ uid ++ ".%(ext)s") /\
  (folder <> "" -> last_char folder <> Some "/"%char ->
   job_outtmpl E = folder ++ "/" ++ uid ++ ".%(ext)s") /\
  (forall E2,
     String.prefix "/" (uuid4_hex E2) = false ->
     DOWNLOAD_FOLDER E2 = folder ->
     job_outtmpl E2 = job_outtmpl E -> uuid4_hex E2 = uid).
Proof.
  intros Hu folder uid.
  assert (Hrel : forall E', String.prefix "/" (uuid4_hex E') = false ->
                            String.prefix "/" (uuid4_hex E' ++ ".%(ext)s") = false).
  { intros E' H. now apply prefix_sep_app. }
  destruct (join_relative folder (uid ++ ".%(ext)s") (Hrel E Hu)) as [Hplain Hslash].
  split; [ | split; [exact Hplain | split; [exact Hslash | ]]].
  - intros Hr. destruct (download_trace_reached E args fs Hr) as (t & Ht & Hex & Hid).
    exists (job_opts E args). rewrite Ht. cbn [extractions identifiers]. rewrite Hex, Hid.
    repeat split.
  - intros E2 Hu2 Hf Heq. unfold job_outtmpl in Heq. rewrite Hf in Heq. fold folder uid in Heq.
    destruct (join_relative folder (uuid4_hex E2 ++ ".%(ext)s") (Hrel E2 Hu2))
      as [Hplain2 Hslash2].
    destruct (String.eqb_spec folder "") as [He | Hne].
    + rewrite (Hplain (or_introl He)), (Hplain2 (or_introl He)) in Heq.
      apply string_app_inv_head in Heq. now apply string_app_inv_tail in Heq.
    + destruct (OsPath.ends_with_sep folder) eqn:Hs.
      * apply ends_with_sep_last_char in Hs.
        rewrite (Hplain (or_intror Hs)), (Hplain2 (or_intror Hs)) in Heq.
        apply string_app_inv_head in Heq. now apply string_app_inv_tail in Heq.
      * assert (Hl : last_char folder <> Some "/"%char).
        { intros Hl. apply ends_with_sep_last_char in Hl. congruence. }
        rewrite (Hslash Hne Hl), (Hslash2 Hne Hl) in Heq.
        do 2 apply string_app_inv_head in Heq. now apply string_app_inv_tail in Heq.
Qed.

(** The template of the sample job, as the engine receives it. *)
Lemma X12_output_template_sample :
  let E := sample_env (ProcExit 0) (sample_info PyNone []) ∅ "" None None in
  exists o,
    extractions (trace (snd (download E sample_args (init ∅)))) = [(o, sample_url, true)] /\
    o !! "outtmpl" =
    Some (PyStr "/srv/app/downloads/9f1c2ab4e0d34c5f8a6b7c8d9e0f1a2b.%(ext)s").
Proof.
  intros E.
  pose proof (X12_output_template_per_identifier E sample_args ∅ eq_refl) as H.
  cbv zeta in H. destruct H as (Hcall & _ & Hslash & _).
  destruct Hcall as (o & Hx & _ & Ho); [repeat split; vm_compute; reflexivity | ].
  exists o. split; [exact Hx | ].
  rewrite Ho, Hslash; [reflexivity | discriminate | discriminate].
Defined.

(** ** Every way a metadata request can end *)

Lemma video_info_valid (E : env) (args : gmap string string) (fs : gset string) :
  nonempty (job_url args) = true ->
  matches YOUTUBE_REGEX (job_url args) = true ->
  video_info E args (init fs) =
  (match fst (extract_info_result E info_ydl_opts (job_url args) false fs) with
   | inl e => inr (JsonError ("Failed to fetch video info: " ++ e) 500)
   | inr i =>
       match sort_formats (collect_formats (raw_formats i)) with
       | inl e => inr (JsonError ("Failed to fetch video info: " ++ e) 500)
       | inr formats => inr (JsonInfo (metadata_of (job_url args) i formats))
       end
   end,
   {| files := snd (extract_info_result E info_ydl_opts (job_url args) false fs);
      trace := [EvExtract info_ydl_opts (job_url args) false];
      hooks := [] |}).
Proof.
  intros Hne Hm. unfold video_info. fold (job_url args).
  rewrite Hne, is_valid_youtube_url_str, Hm. run_monad.
  destruct (extract_info_result E info_ydl_opts (job_url args) false fs) as [[e | i] fs1];
    [reflexivity | ].
  fold (raw_formats i).
  destruct (sort_formats (collect_formats (raw_formats i))); reflexivity.
Qed.

(** X13.  The metadata handler never raises and never registers a
    hook.  Its answer has the status 400 exactly when the trimmed URL is
    empty or rejected by the validator, and then nothing was done;
    otherwise its one external operation is a call of the engine
    without download, and the answer has the status 500 or carries the
    metadata with the trimmed URL as [original_url]. *)
Theorem X13_video_info_always_answers (E : env) (args : gmap string string)
    (fs : gset string) :
  exists r st,
    video_info E args (init fs) = (inr r, st) /\
    hooks st = [] /\
    (status r = 400 <->
     nonempty (job_url args) = false \/ matches YOUTUBE_REGEX (job_url args) = false) /\
    (status r = 400 -> st = init fs) /\
    (status r <> 400 -> trace st = [EvExtract info_ydl_opts (job_url args) false]) /\
    (status r = 400 \/ status r = 500 \/
     exists m, r = JsonInfo m /\ meta_original_url m = job_url args).
Proof.
  destruct (nonempty (job_url args)) eqn:Hne.
  - destruct (matches YOUTUBE_REGEX (job_url args)) eqn:Hm.
    + rewrite (video_info_valid E args fs Hne Hm).
      destruct (extract_info_result E info_ydl_opts (job_url args) false fs)
        as [[e | i] fs1]; cbn [fst snd];
        [ | destruct (sort_formats (collect_formats (raw_formats i)))];
        eexists _, _; (split; [reflexivity | ]); cbn [hooks trace status];
        (split; [reflexivity | ]); (split; [split; [discriminate | intros [H | H]; discriminate H] | ]);
        (split; [discriminate | ]); (split; [reflexivity | ]); eauto.
    + rewrite (video_info_invalid_url E args fs Hne Hm). eexists _, _.
      split; [reflexivity | ]. cbn [hooks status init].
      repeat split; auto; congruence.
    - rewrite (video_info_no_url E args fs Hne). eexists _, _.
      split; [reflexivity | ]. cbn [hooks status init].
      repeat split; auto; congruence.
Qed.

(** ** What makes a metadata request fail *)

Lemma neg_or_zero_text (v : pyval) : is_text v = true -> neg (py_or v (PyInt 0)) = None.
Proof.
  destruct v as [ | b | n | q | s]; try discriminate. unfold is_text, nonempty, py_or.
  cbn [truthy]. now intros ->.
Qed.

Lemma sort_key_text (f : fmt) :
  is_text (height f) = true \/ is_text (abr f) = true ->
  sort_key f = inl unary_minus_error.
Proof.
  unfold sort_key. intros [H | H]; rewrite (neg_or_zero_text _ H).
  - reflexivity.
  - now destruct (neg (py_or (height f) (PyInt 0))).
Qed.

Lemma sort_key_error (f : fmt) (e : exn) : sort_key f = inl e -> e = unary_minus_error.
Proof.
  unfold sort_key.
  destruct (neg (py_or (height f) (PyInt 0))), (neg (py_or (abr f) (PyInt 0)));
    now intros [= <-].
Qed.

Lemma decorate_raises {A} (kf : A -> exn + key) (e : exn) (l : list A) :
  (forall a e', kf a = inl e' -> e' = e) ->
  Exists (fun a => kf a = inl e) l -> decorate kf l = inl e.
Proof.
  intros Huniq. induction 1 as [a l Ha | a l _ IH]; cbn [decorate].
  - now rewrite Ha.
  - destruct (kf a) as [e' | k] eqn:Ha; [f_equal; eauto | now rewrite IH].
Qed.

(** X14.  For a URL that the validator accepts, the metadata request
    fails with the status 500 and "Failed to fetch video info: "
    followed by the text of the exception in these two cases: the
    engine raises; or the engine returns, its [formats] entry is absent
    or a list of dictionaries, and a retained format has a non-empty
    text as its height or audio bitrate, on which the sort raises a
    type error.  In both the engine has been called once, without
    download, and nothing is registered. *)
Theorem X14_video_info_failures (E : env) (args : gmap string string) (fs fs1 : gset string) :
  nonempty (job_url args) = true ->
  matches YOUTUBE_REGEX (job_url args) = true ->
  (forall e,
     extract_info_result E info_ydl_opts (job_url args) false fs = (inl e, fs1) ->
     video_info E args (init fs) =
     (inr (JsonError ("Failed to fetch video info: " ++ e) 500),
      {| files := fs1; trace := [EvExtract info_ydl_opts (job_url args) false];
         hooks := [] |})) /\
  (forall i,
     extract_info_result E info_ydl_opts (job_url args) false fs = (inr i, fs1) ->
     Exists (fun f => is_text (height f) = true \/ is_text (abr f) = true)
            (collect_formats (raw_formats i)) ->
     video_info E args (init fs) =
     (inr (JsonError ("Failed to fetch video info: " ++ unary_minus_error) 500),
      {| files := fs1; trace := [EvExtract info_ydl_opts (job_url args) false];
         hooks := [] |})).
Proof.
  intros Hne Hm. rewrite (video_info_valid E args fs Hne Hm). split.
  - intros e ->. reflexivity.
  - intros i -> Hex. cbn [fst snd]. unfold sort_formats, list_sort.
    rewrite (decorate_raises sort_key unary_minus_error); [reflexivity | | ].
    + intros f e'. apply sort_key_error.
    + eapply List.Exists_impl; [ | exact Hex]. intros f. apply sort_key_text.
Qed.

Lemma X14_video_info_text_height_sample :
  let broken : gmap string pyval :=
    {[ "format_id" := PyStr "18"; "ext" := PyStr "mp4"; "height" := PyStr "360p" ]} in
  let E := sample_env (ProcExit 0) (sample_info (PyStr "Clip") [raw_audio; broken]) ∅ ""
             None None in
  fst (video_info E sample_args (init ∅)) =
  inr (JsonError "Failed to fetch video info: bad operand type for unary -: 'str'" 500).
Proof.
  intros broken E.
  destruct (X14_video_info_failures E sample_args ∅ ∅) as [_ H];
    [vm_compute; reflexivity | vm_compute; reflexivity | ].
  rewrite (H (sample_info (PyStr "Clip") [raw_audio; broken])).
  - reflexivity.
  - vm_compute. reflexivity.
  - apply Exists_cons_tl. apply Exists_cons_hd. left. vm_compute. reflexivity.
Defined.

(** X15.  The thumbnail of the metadata is the [thumbnail] of the
    engine's result when that is true in a boolean context; otherwise
    it is the [url] of the last entry of [thumbnails], and [None] when
    that list is absent or empty. *)
Theorem X15_thumbnail_choice (E : env) (args : gmap string string) (fs : gset string)
    (m : video_metadata) :
  fst (video_info E args (init fs)) = inr (JsonInfo m) ->
  exists i,
    fst (extract_info_result E info_ydl_opts (job_url args) false fs) = inr i /\
    (truthy (get (info_fields i) "thumbnail") = true ->
     meta_thumbnail m = get (info_fields i) "thumbnail") /\
    (truthy (get (info_fields i) "thumbnail") = false ->
     (forall ts t, info_thumbnails i = Some (ts ++ [t])%list ->
                   meta_thumbnail m = get t "url") /\
     (info_thumbnails i = None \/ info_thumbnails i = Some [] ->
      meta_thumbnail m = PyNone)).
Proof.
  destruct (nonempty (job_url args)) eqn:Hne;
    [ | rewrite (video_info_no_url E args fs Hne); intros [= ]].
  destruct (matches YOUTUBE_REGEX (job_url args)) eqn:Hm;
    [ | rewrite (video_info_invalid_url E args fs Hne Hm); intros [= ]].
  rewrite (video_info_valid E args fs Hne Hm). cbn [fst].
  destruct (fst (extract_info_result E info_ydl_opts (job_url args) false fs))
    as [e | i]; [intros [= ] | ].
  destruct (sort_formats (collect_formats (raw_formats i))); intros [= <-].
  exists i. split; [reflexivity | ]. cbn [meta_thumbnail metadata_of]. unfold py_or.
  split; [now intros -> | intros ->]. split.
  - intros ts t ->. unfold last_thumbnail_url.
    destruct ts as [ | t0 ts]; [reflexivity | ].
    cbn [app]. now rewrite last_last.
  - intros [-> | ->]; reflexivity.
Qed.

Lemma X15_thumbnail_sample :
  let thumbs : list (gmap string pyval) :=
    [ {[ "url" := PyStr "https://i.ytimg.com/vi/dQw4w9WgXcQ/default.jpg" ]};
      {[ "url" := PyStr "https://i.ytimg.com/vi/dQw4w9WgXcQ/maxresdefault.jpg" ]} ] in
  let i := {| info_fields := {[ "title" := PyStr "Clip" ]};
              info_formats := None; info_thumbnails := Some thumbs |} in
  let E := sample_env (ProcExit 0) i ∅ "" None None in
  meta_thumbnail (metadata_of (job_url sample_args) i []) =
  PyStr "https://i.ytimg.com/vi/dQw4w9WgXcQ/maxresdefault.jpg".
Proof.
  intros thumbs i E.
  destruct (X15_thumbnail_choice E sample_args ∅ (metadata_of (job_url sample_args) i []))
    as (i' & Hi & _ & H).
  - vm_compute. reflexivity.
  - injection Hi as <-.
    destruct H as [H _]; [vm_compute; reflexivity | ].
    rewrite (H [ {[ "url" := PyStr "https://i.ytimg.com/vi/dQw4w9WgXcQ/default.jpg" ]} ]
               {[ "url" := PyStr "https://i.ytimg.com/vi/dQw4w9WgXcQ/maxresdefault.jpg" ]}
               eq_refl).
    vm_compute. reflexivity.
Defined.

(** ** What the engine is given *)

Lemma lstrip_by_first (p : ascii -> bool) (s : string) (c : ascii) :
  first_char (lstrip_by p s) = Some c -> p c = false.
Proof.
  induction s as [ | x s IH]; [discriminate | ]. cbn [lstrip_by].
  destruct (p x) eqn:Hx; [exact IH | ]. now intros [= <-].
Qed.

Lemma rstrip_by_last (p : ascii -> bool) (s : string) (c : ascii) :
  last_char (rstrip_by p s) = Some c -> p c = false.
Proof.
  induction s as [ | x s IH]; [discriminate | ]. cbn [rstrip_by].
  destruct (rstrip_by p s) as [ | y r].
  - destruct (p x) eqn:Hx; [discriminate | ]. now intros [= <-].
  - exact IH.
Qed.

Lemma rstrip_by_first (p : ascii -> bool) (s : string) (c : ascii) :
  first_char (rstrip_by p s) = Some c -> first_char s = Some c.
Proof.
  destruct s as [ | x s]; [discriminate | ]. cbn [rstrip_by].
  destruct (rstrip_by p s); [destruct (p x); [discriminate | ] | ]; exact id.
Qed.

Lemma strip_trimmed (s : string) : trimmed (strip s).
Proof.
  unfold strip. split; intros c Hc.
  - apply rstrip_by_first in Hc. now apply lstrip_by_first in Hc.
  - now apply rstrip_by_last in Hc.
Qed.

Lemma format_spec_of_strip (x : string) :
  format_spec_of (strip x) <> "" /\ trimmed (format_spec_of (strip x)).
Proof.
  unfold format_spec_of, nonempty.
  destruct (String.eqb_spec (strip x) "") as [_ | Hne]; cbn [negb].
  - split; [discriminate | ]. split; intros c [= <-]; reflexivity.
  - split; [assumption | apply strip_trimmed].
Qed.

(** X18.  Whatever the request, the download handler calls the engine
    only in download mode, with the trimmed URL, which the validator
    has accepted and which has no whitespace at either end, and with a
    format option that is a non-empty text without whitespace at either
    end; the metadata handler calls it only without download, with such
    a URL and with the option [skip_download] set. *)
Theorem X18_engine_arguments (E : env) (args : gmap string string) (fs : gset string) :
  (forall o u d,
     In (o, u, d) (extractions (trace (snd (download E args (init fs))))) ->
     d = true /\ u = job_url args /\ url_shape u /\ trimmed u /\
     exists spec, o !! "format" = Some (PyStr spec) /\ spec <> "" /\ trimmed spec) /\
  (forall o u d,
     In (o, u, d) (extractions (trace (snd (video_info E args (init fs))))) ->
     d = false /\ u = job_url args /\ url_shape u /\ trimmed u /\
     o !! "skip_download" = Some (PyBool true)).
Proof.
  split; intros o u d Hin.
  - destruct (reaches_or_not E args) as [Hr | Hn].
    + destruct (download_trace_reached E args fs Hr) as (t & Ht & Hex & _).
      rewrite Ht in Hin. cbn [extractions] in Hin. rewrite Hex in Hin.
      destruct Hin as [[= <- <- <-] | []]. destruct Hr as (_ & Hm & _).
      split; [reflexivity | ]. split; [reflexivity | ].
      split; [now apply matches_url_shape | ]. split; [apply strip_trimmed | ].
      eexists. split; [apply job_opts_format | apply format_spec_of_strip].
    + assert (Hnr : ~ reaches_extraction E args).
      { unfold reaches_extraction. intros (H1 & H2 & H3).
        destruct Hn as [H | [[_ H] | (_ & _ & H)]]; congruence. }
      destruct (download_trace_not_reached E args fs Hnr) as (Hex & _).
      rewrite Hex in Hin. destruct Hin.
  - destruct (nonempty (job_url args)) eqn:Hne;
      [ | rewrite (video_info_no_url E args fs Hne) in Hin; destruct Hin].
    destruct (matches YOUTUBE_REGEX (job_url args)) eqn:Hm;
      [ | rewrite (video_info_invalid_url E args fs Hne Hm) in Hin; destruct Hin].
    rewrite (video_info_valid E args fs Hne Hm) in Hin. cbn [snd trace extractions] in Hin.
    destruct Hin as [[= <- <- <-] | []].
    split; [reflexivity | ]. split; [reflexivity | ].
    split; [now apply matches_url_shape | ]. split; [apply strip_trimmed | reflexivity].
Qed.

Lemma X18_engine_arguments_sample :
  let E := sample_env (ProcExit 0) (sample_info (PyStr "Clip") []) ∅ "" None None in
  let args : gmap string string := {[ "url" := "  https://youtu.be/dQw4w9WgXcQ  " ]} in
  url_shape "https://youtu.be/dQw4w9WgXcQ".
Proof.
  intros E args.
  destruct (proj1 (X18_engine_arguments E args ∅)
              (job_opts E args) "https://youtu.be/dQw4w9WgXcQ" true)
    as (_ & _ & H & _).
  - vm_compute. left. reflexivity.
  - exact H.
Defined.

(** ** The validator and the replacement of characters *)

(** X16.  A string that the validator accepts is still accepted when
    anything is appended to it. *)
Theorem X16_valid_url_stays_valid (url rest : string) :
  is_valid_youtube_url (PyStr url) = inr true ->
  is_valid_youtube_url (PyStr (url ++ rest)) = inr true.
Proof.
  rewrite !is_valid_youtube_url_str. intros [= H]. f_equal.
  apply matches_url_shape in H as (pre & shape & tok & r & -> & Hpre & Hshape & Htok).
  apply matches_url_shape. exists pre, shape, tok, (r ++ rest).
  split; [ | auto]. now rewrite !string_app_assoc.
Qed.

Lemma X16_valid_url_sample :
  is_valid_youtube_url (PyStr ("https://youtu.be/dQw4w9WgXcQ" ++ "?t=42&feature=share"))
  = inr true.
Proof. apply X16_valid_url_stays_valid. reflexivity. Defined.

Lemma replace_unsafe_idem (c : ascii) : replace_unsafe (replace_unsafe c) = replace_unsafe c.
Proof.
  destruct (bool_decide (c ∈ unsafe_chars)) eqn:Hc.
  - assert (H : replace_unsafe c = "_"%char) by (unfold replace_unsafe; now rewrite Hc).
    rewrite H. vm_compute. reflexivity.
  - assert (H : replace_unsafe c = c) by (unfold replace_unsafe; now rewrite Hc).
    now rewrite !H.
Qed.

(** X17.  The replacement of characters keeps the length of the title,
    changes nothing in a title that has none of the nine characters,
    gives the same result when applied twice, and works on a
    concatenation part by part. *)
Theorem X17_safe_title_of_algebra (t u : string) :
  String.length (safe_title_of t) = String.length t /\
  safe_title_of (safe_title_of t) = safe_title_of t /\
  safe_title_of (t ++ u) = safe_title_of t ++ safe_title_of u /\
  (Forall (fun c => c ∉ unsafe_chars) (chars t) -> safe_title_of t = t).
Proof.
  split; [ | split; [ | split]].
  - rewrite <- !chars_length, safe_title_of_chars. apply length_map.
  - apply chars_inj. rewrite !safe_title_of_chars, List.map_map.
    apply List.map_ext. apply replace_unsafe_idem.
  - apply chars_inj. rewrite chars_app, !safe_title_of_chars, chars_app. apply List.map_app.
  - intros H. apply chars_inj. rewrite safe_title_of_chars.
    induction H as [ | c l Hc _ IH]; [reflexivity | ].
    cbn [map]. rewrite IH. unfold replace_unsafe.
    now rewrite (bool_decide_eq_false_2 _ Hc).
Qed.

Lemma X17_safe_title_of_sample : safe_title_of "Clip 01" = "Clip 01".
Proof.
  apply (proj2 (proj2 (proj2 (X17_safe_title_of_algebra "Clip 01" "")))).
  unfold chars. cbn [list_ascii_of_string].
  repeat (constructor; [apply char_not_elem_by_decide; vm_compute; reflexivity | ]).
  constructor.
Defined.

(** ** Instances of the statements that hold for every request *)

Lemma X2_check_ffmpeg_sample :
  let E := sample_env (ProcExit 127) (sample_info PyNone []) ∅ "" None None in
  fst (check_ffmpeg E (init ∅)) = inr false.
Proof.
  intros E. destruct (X2_check_ffmpeg_total E (init ∅)) as (b & -> & Hb).
  destruct b; [ | reflexivity].
  destruct Hb as [Hb _]. discriminate (Hb eq_refl).
Defined.

Lemma X5_download_sample :
  let E := sample_env (ProcExit 0) (sample_info PyNone []) ∅ "" None None in
  exists r st,
    download E {[ "url" := "https://example.org/" ]} (init ∅) = (inr r, st) /\
    status r = 400.
Proof.
  intros E.
  destruct (X5_download_always_answers E {[ "url" := "https://example.org/" ]} ∅)
    as (r & st & Heq & Hiff & _).
  exists r, st. split; [exact Heq | ].
  apply Hiff. right. vm_compute. reflexivity.
Defined.

Lemma X6_hook_sample :
  let E := sample_env (ProcExit 0) (sample_info (PyStr "Clip") [])
             {[sample_path "mp4"]} (sample_path "mp4") None (Some "Broken pipe") in
  hooks (snd (download E sample_args (init ∅))) = [RemoveFile (sample_path "mp4")].
Proof.
  intros E.
  destruct (X6_hook_iff_send_file E sample_args ∅)
    as [_ [[_ Hs] | (final_path & name & _ & _ & _)]].
  - vm_compute in Hs. discriminate Hs.
  - vm_compute. reflexivity.
Defined.

Lemma X13_video_info_sample :
  let E := sample_env (ProcExit 0) (sample_info PyNone []) ∅ "" None None in
  snd (video_info E ∅ (init ∅)) = init ∅.
Proof.
  intros E.
  destruct (X13_video_info_always_answers E ∅ ∅) as (r & st & Heq & _ & Hiff & H400 & _).
  rewrite Heq. cbn [snd]. apply H400. apply Hiff. left. vm_compute. reflexivity.
Defined.

(** * The request cycle of a download job *)

(** C1, as the code has it.  A request that passes the URL checks and
    the ffmpeg probe ends in one of five ways.  When the engine returns,
    the reported path or its [.mp4] fallback exists (the resolved file)
    and the title is absent, [None], empty or a text, the removal of the
    resolved file is registered before [send_file] is called and runs
    when the view function has returned, whether [send_file] produced
    the attachment or raised: [os.remove] is called once, on the
    resolved file; if it succeeds the file is gone, and if it raises the
    error is printed and the answer is unchanged.  In the four other
    ways nothing is registered and the files are left as the engine
    wrote them: the title is another value that is true in a boolean
    context, neither path exists, [prepare_filename] raises, or the
    engine raises. *)
Theorem C1_cleanup_of_resolved_file (E : env) (args : gmap string string)
    (fs fs1 : gset string) :
  reaches_extraction E args ->
  (forall i p,
     extract_info_result E (job_opts E args) (job_url args) true fs = (inr i, fs1) ->
     prepare_filename_result E (job_opts E args) i = inr p ->
     let final_path := resolved_path fs1 p in
     let v := get (info_fields i) "title" in
     (final_path ∈ fs1 ->
      forall title,
        (truthy v = false /\ title = "video") \/
        (exists s, v = PyStr s /\ s <> "" /\ title = strip s) ->
        exists st,
          handle_request E (download E args) fs =
          (inr match send_file_error E final_path with
               | Some e => JsonError ("Download failed: " ++ e) 500
               | None =>
                   SendFile (Attachment final_path
                               (safe_title_of title ++ "." ++ ext_of final_path))
               end, st) /\
          hooks st = [RemoveFile final_path] /\
          removals (trace st) = [final_path] /\
          match os_remove_error E final_path with
          | None => files st = fs1 ∖ {[final_path]} /\ final_path ∉ files st
          | Some e => files st = fs1 /\ In (EvPrint ("Cleanup error: " ++ e)) (trace st)
          end) /\
     (final_path ∈ fs1 -> truthy v = true -> (forall s, v <> PyStr s) ->
      handle_request E (download E args) fs =
      (inr (JsonError ("Download failed: '" ++ type_name v ++
                       "' object has no attribute 'strip'") 500),
       {| files := fs1; trace := resolution_trace E args fs1 p; hooks := [] |})) /\
     (final_path ∉ fs1 ->
      handle_request E (download E args) fs =
      (inr (JsonError "File not found after download" 500),
       {| files := fs1; trace := resolution_trace E args fs1 p; hooks := [] |}))) /\
  (forall i e,
     extract_info_result E (job_opts E args) (job_url args) true fs = (inr i, fs1) ->
     prepare_filename_result E (job_opts E args) i = inl e ->
     handle_request E (download E args) fs =
     (inr (JsonError ("Download failed: " ++ e) 500),
      {| files := fs1;
         trace := [EvSubprocess ffmpeg_argv (ProcExit 0); EvUuid (uuid4_hex E);
                   EvExtract (job_opts E args) (job_url args) true; EvPrepareFilename];
         hooks := [] |})) /\
  (forall e,
     extract_info_result E (job_opts E args) (job_url args) true fs = (inl e, fs1) ->
     handle_request E (download E args) fs =
     (inr (JsonError ("Download failed: " ++ e) 500),
      {| files := fs1;
         trace := [EvSubprocess ffmpeg_argv (ProcExit 0); EvUuid (uuid4_hex E);
                   EvExtract (job_opts E args) (job_url args) true];
         hooks := [] |})).
Proof.
  intros Hr. split; [ | split].
  - intros i p Hx Hp final_path v. split; [ | split].
    + intros Hin title Htitle.
      assert (Ht : job_title i = inr title).
      { destruct Htitle as [[Hf ->] | (s & Hs & Hne & ->)].
        - now apply job_title_default.
        - now apply job_title_str. }
      unfold handle_request. rewrite (download_resolution E args fs fs1 i p Hr Hx Hp).
      cbv zeta. fold final_path. rewrite (bool_decide_eq_true_2 _ Hin), Ht.
      cbn [run_hooks run_hook hooks].
      destruct (resolution_trace_sends E args fs1 p) as [_ Hrm].
      destruct (send_file_error E final_path) as [e' | ]; unfold bind;
        rewrite remove_file_run; cbn [files trace hooks ret];
        rewrite (bool_decide_eq_true_2 _ Hin);
        (destruct (os_remove_error E final_path) as [e | ]; eexists;
         (split; [reflexivity | ]); cbn [files trace hooks];
         (split; [reflexivity | ]);
         (split; [rewrite !removals_app, Hrm; reflexivity | ]);
         (split; [reflexivity | ]);
         [apply in_or_app; right; simpl; auto
         | apply not_elem_of_difference; right; now apply elem_of_singleton]).
    + intros Hin Ht Hns. eapply handle_request_no_hook; [ | reflexivity].
      rewrite (download_resolution E args fs fs1 i p Hr Hx Hp). cbv zeta.
      rewrite (bool_decide_eq_true_2 _ Hin). unfold job_title, py_or. fold v. rewrite Ht.
      destruct v; try reflexivity. now contradiction (Hns s).
    + intros Hnin. eapply handle_request_no_hook; [ | reflexivity].
      rewrite (download_resolution E args fs fs1 i p Hr Hx Hp). cbv zeta.
      now rewrite (bool_decide_eq_false_2 _ Hnin).
  - intros i e Hx Hp. eapply handle_request_no_hook; [ | reflexivity].
    now apply (download_prepare_raised E args fs fs1 i e).
  - intros e Hx. eapply handle_request_no_hook; [ | reflexivity].
    now apply download_engine_raised.
Qed.

(** The file written under the fallback name is sent and then removed. *)
Lemma C1_cleanup_sample :
  let E := sample_env (ProcExit 0) (sample_info (PyStr "My:Video/Clip?") [])
             {[sample_path "mp4"]} (sample_path "webm") None None in
  exists st,
    handle_request E (download E sample_args) ∅ =
    (inr (SendFile (Attachment (sample_path "mp4") "My_Video_Clip_.mp4")), st) /\
    hooks st = [RemoveFile (sample_path "mp4")] /\
    removals (trace st) = [sample_path "mp4"] /\
    sample_path "mp4" ∉ files st.
Proof.
  intros E.
  assert (Hr : reaches_extraction E sample_args) by (repeat split; vm_compute; reflexivity).
  assert (Hx : extract_info_result E (job_opts E sample_args) (job_url sample_args) true ∅ =
               (inr (sample_info (PyStr "My:Video/Clip?") []), {[sample_path "mp4"]}))
    by (vm_compute; reflexivity).
  assert (Hp : resolved_path {[sample_path "mp4"]} (sample_path "webm") = sample_path "mp4")
    by (vm_compute; reflexivity).
  pose proof (proj1 (proj1 (C1_cleanup_of_resolved_file E sample_args ∅ {[sample_path "mp4"]} Hr)
                       (sample_info (PyStr "My:Video/Clip?") []) (sample_path "webm")
                       Hx eq_refl)) as H.
  cbv zeta in H. rewrite Hp in H.
  destruct (H ltac:(now apply elem_of_singleton) "My:Video/Clip?")
    as (st & Heq & Hh & Hrm & Hfiles).
  - right. exists "My:Video/Clip?". split; [reflexivity | ].
    split; [discriminate | vm_compute; reflexivity].
  - exists st. split; [ | split; [exact Hh | split; [exact Hrm | ]]].
    + rewrite Heq. vm_compute. reflexivity.
    + cbn [E sample_env os_remove_error] in Hfiles. exact (proj2 Hfiles).
Defined.

(** * The validator on tokens that are too short or too long *)

Section TokenLength.

Lemma In_by_eqb (x : string) (l : list string) :
  existsb (String.eqb x) l = true -> In x l.
Proof.
  intros H. apply existsb_exists in H as (y & Hy & Heq).
  apply String.eqb_eq in Heq. now subst.
Qed.

Lemma host_prefix_listed (pre : string) : host_prefix pre -> In pre host_prefixes.
Proof.
  intros (scheme & www & host & tld & -> & Hs & Hw & Hh & Ht).
  simpl in Hs, Hw, Hh, Ht.
  destruct Hs as [<- | [<- | [<- | []]]]; destruct Hw as [<- | [<- | []]];
    destruct Hh as [<- | [<- | [<- | []]]]; destruct Ht as [<- | [<- | []]];
    apply In_by_eqb; vm_compute; reflexivity.
Qed.

(** No recognised beginning is the beginning of another one. *)
Lemma host_prefixes_prefix_free (a b : string) :
  In a host_prefixes -> In b host_prefixes -> String.prefix a b = true -> a = b.
Proof.
  assert (H : forallb (fun a => forallb (fun b => implb (String.prefix a b) (String.eqb a b))
                                        host_prefixes) host_prefixes = true)
    by (vm_compute; reflexivity).
  intros Ha Hb Hp. rewrite forallb_forall in H. specialize (H a Ha).
  rewrite forallb_forall in H. specialize (H b Hb). rewrite Hp in H.
  now apply String.eqb_eq.
Qed.

Lemma app_eq_prefix (a b x y : string) :
  a ++ x = b ++ y -> String.prefix a b = true \/ String.prefix b a = true.
Proof.
  revert b. induction a as [ | c a IH]; intros b.
  - intros _. left. now destruct b.
  - destruct b as [ | d b]; [intros _; now right | ].
    change (String c (a ++ x) = String d (b ++ y) ->
            String.prefix (String c a) (String d b) = true \/
            String.prefix (String d b) (String c a) = true).
    intros [= <- H]. cbn [String.prefix].
    destruct (ascii_dec c c) as [_ | Hne]; [now apply IH | contradiction].
Qed.

Lemma host_prefix_unique (a b x y : string) :
  host_prefix a -> host_prefix b -> a ++ x = b ++ y -> a = b /\ x = y.
Proof.
  intros Ha Hb H. apply host_prefix_listed in Ha, Hb.
  assert (a = b) as <-.
  { destruct (app_eq_prefix _ _ _ _ H) as [Hp | Hp].
    - now apply host_prefixes_prefix_free.
    - symmetry. now apply host_prefixes_prefix_free. }
  split; [reflexivity | now apply string_app_inv_head in H].
Qed.

(** What is left of an accepted string after its recognised beginning. *)
Lemma url_shape_after_prefix (pre x : string) :
  host_prefix pre -> url_shape (pre ++ x) ->
  exists shape tok rest, x = shape ++ tok ++ rest /\ path_shape shape /\ token 11 tok.
Proof.
  intros Hpre (pre' & shape & tok & rest & Heq & Hpre' & Hshape & Htok).
  destruct (host_prefix_unique _ _ _ _ Hpre Hpre' Heq) as [_ ->].
  exists shape, tok, rest. auto.
Qed.

Lemma token_no_delimiter (n : nat) (tok : string) (c : ascii) :
  token n tok -> is_delimiter c = true -> ~ In c (chars tok).
Proof.
  intros [_ Hall] Hc Hin. rewrite List.Forall_forall in Hall.
  specialize (Hall c Hin). congruence.
Qed.

Lemma too_short_rejected (tok shape t r : string) :
  token 10 tok -> token 11 t -> tok = shape ++ t ++ r -> False.
Proof.
  intros [Hlen _] [Hlen' _] ->. rewrite !string_length_app in Hlen. lia.
Qed.

Local Open Scope list_scope.

Lemma watch_too_short_rejected (tok shape t r : string) :
  token 10 tok -> path_shape shape -> token 11 t ->
  ("watch?v=" ++ tok)%string = (shape ++ t ++ r)%string -> False.
Proof.
  intros Htok Hshape Ht Heq.
  assert (Hq : ~ In "?"%char (chars tok)) by (eapply token_no_delimiter; eauto).
  assert (Hlen : (String.length tok < String.length t + String.length r)%nat).
  { destruct Htok as [-> _], Ht as [-> _]. lia. }
  apply (f_equal chars) in Heq. rewrite !chars_app in Heq.
  change (chars "watch?v=") with ["w"; "a"; "t"; "c"; "h"; "?"; "v"; "="]%char in Heq.
  destruct Hshape as [Hin | (t0 & Hne & _ & ->)].
  - simpl in Hin.
    destruct Hin as [<- | [<- | [<- | [<- | [<- | []]]]]];
      try (cbn in Heq; discriminate Heq).
    + (* no path prefix: the token would hold the question mark *)
      cbn [chars list_ascii_of_string app] in Heq.
      destruct Ht as [Hl Hall]. rewrite <- chars_length in Hl.
      destruct (chars t) as [ | c1 [ | c2 [ | c3 [ | c4 [ | c5 [ | c6 l]]]]]];
        try discriminate Hl.
      cbn [app] in Heq. injection Heq as <- <- <- <- <- <- _.
      do 5 apply List.Forall_inv_tail in Hall. apply List.Forall_inv in Hall.
      discriminate Hall.
    + (* the path prefix watch?v=: ten characters are left for eleven *)
      cbn [chars list_ascii_of_string app] in Heq. injection Heq as Heq.
      apply (f_equal (@length ascii)) in Heq. rewrite length_app, !chars_length in Heq. lia.
  - (* some text and ?v= *)
    rewrite chars_app in Heq.
    change (chars "?v=") with ["?"; "v"; "="]%char in Heq. rewrite <- !app_assoc in Heq.
    assert (Hne' : chars t0 <> []).
    { intros H. apply Hne. apply chars_inj. now rewrite H. }
    destruct (chars t0) as [ | c1 l1]; [contradiction | ].
    cbn [app] in Heq. injection Heq as <- Heq.
    repeat (destruct l1 as [ | ? l1]; cbn [app] in Heq;
            [try discriminate Heq | injection Heq as <- Heq]).
    + (* the text is watch *)
      injection Heq as Heq.
      apply (f_equal (@length ascii)) in Heq. rewrite length_app, !chars_length in Heq. lia.
    + (* the text reaches into the token, which has no question mark *)
      apply Hq. rewrite Heq. apply in_or_app. right. now left.
Qed.

(** A token of at least eleven characters begins with a token of eleven. *)
Lemma token_split (n : nat) (tok : string) :
  token n tok -> (11 <= n)%nat ->
  exists t r, tok = (t ++ r)%string /\ token 11 t.
Proof.
  intros [Hlen Hall] Hn.
  exists (string_of_list_ascii (firstn 11 (chars tok))),
         (string_of_list_ascii (skipn 11 (chars tok))).
  split; [ | split].
  - apply chars_inj. now rewrite chars_app, !chars_of_list, firstn_skipn.
  - rewrite <- chars_length, chars_of_list, length_firstn, chars_length. lia.
  - rewrite chars_of_list. rewrite <- (firstn_skipn 11 (chars tok)) in Hall.
    now apply List.Forall_app in Hall as [Hall _].
Qed.

Lemma token_app (n m : nat) (a b : string) :
  token n a -> token m b -> token (n + m) (a ++ b)%string.
Proof.
  intros [Hn Ha] [Hm Hb]. split.
  - rewrite string_length_app. lia.
  - rewrite chars_app. apply List.Forall_app. now split.
Qed.

Lemma fixed_prefix_token (p : string) :
  In p ["embed/"; "v/"; "shorts/"]%string -> token (String.length p) p.
Proof.
  simpl. intros [<- | [<- | [<- | []]]]; (split; [reflexivity | ]);
    unfold chars; simpl; repeat constructor.
Qed.

End TokenLength.

(** C3, as the code has it.  On every string the validator returns a
    boolean, and it returns [True] exactly when the string begins with a
    recognised host prefix, an optional path shape and eleven characters
    that are not delimiters; what follows the eleventh character is not
    looked at.  The empty string is rejected, and so is every string
    that does not begin with a recognised host prefix.  A string that
    ends after ten token characters which follow the host prefix
    directly or after [watch?v=] is rejected.  A token of eleven or more
    characters after a host prefix and a path shape is accepted, and so
    is a token of ten characters after [embed/], [v/] or [shorts/]. *)
Theorem C3_url_validator_prefix_shape (url : string) :
  (exists b, is_valid_youtube_url (PyStr url) = inr b) /\
  (is_valid_youtube_url (PyStr url) = inr true <-> url_shape url) /\
  is_valid_youtube_url (PyStr "") = inr false /\
  ((forall pre rest, url = pre ++ rest -> ~ host_prefix pre) ->
   is_valid_youtube_url (PyStr url) = inr false) /\
  (forall pre tok, host_prefix pre -> token 10 tok ->
     url = pre ++ tok \/ url = pre ++ "watch?v=" ++ tok ->
     is_valid_youtube_url (PyStr url) = inr false) /\
  (forall pre shape tok n, host_prefix pre -> path_shape shape -> token n tok ->
     (11 <= n)%nat -> url = pre ++ shape ++ tok ->
     is_valid_youtube_url (PyStr url) = inr true) /\
  (forall pre p tok, host_prefix pre -> In p ["embed/"; "v/"; "shorts/"] ->
     token 10 tok -> url = pre ++ p ++ tok ->
     is_valid_youtube_url (PyStr url) = inr true).
Proof.
  rewrite is_valid_youtube_url_str. split; [eauto | ].
  split; [ | split; [ | split; [ | split; [ | split]]]].
  - rewrite <- matches_url_shape. split; [now intros [= ->] | now intros ->].
  - reflexivity.
  - intros Hno. destruct (matches YOUTUBE_REGEX url) eqn:Hm; [ | reflexivity].
    apply matches_url_shape in Hm as (pre & shape & tok & rest & -> & Hpre & _).
    exfalso. exact (Hno pre _ eq_refl Hpre).
  - intros pre tok Hpre Htok Hurl.
    destruct (matches YOUTUBE_REGEX url) eqn:Hm; [ | reflexivity]. exfalso.
    apply matches_url_shape in Hm.
    destruct Hurl as [-> | ->];
      apply url_shape_after_prefix in Hm as (shape & t & r & Heq & Hshape & Ht);
      try assumption.
    + exact (too_short_rejected _ _ _ _ Htok Ht Heq).
    + exact (watch_too_short_rejected _ _ _ _ Htok Hshape Ht Heq).
  - intros pre shape tok n Hpre Hshape Htok Hn ->.
    destruct (token_split _ _ Htok Hn) as (t & r & -> & Ht).
    f_equal. apply matches_url_shape. exists pre, shape, t, r. auto.
  - intros pre p tok Hpre Hp Htok ->.
    pose proof (token_app _ _ _ _ (fixed_prefix_token _ Hp) Htok) as Hall.
    assert (Hn : (11 <= String.length p + 10)%nat).
    { simpl in Hp. destruct Hp as [<- | [<- | [<- | []]]]; simpl; lia. }
    destruct (token_split _ _ Hall Hn) as (t & r & Heq & Ht).
    f_equal. apply matches_url_shape. exists pre, "", t, r.
    split; [ | split; [assumption | split; [ | assumption]]].
    + now rewrite Heq.
    + left. now left.
Qed.

(** The theorem at concrete addresses: the shape of an accepted short
    link, the two rejections of a ten-character identifier, and the
    acceptance of twelve characters and of ten characters after
    [embed/]. *)
Lemma C3_url_validator_witness :
  url_shape "https://youtu.be/dQw4w9WgXcQ" /\
  is_valid_youtube_url (PyStr "https://youtu.be/dQw4w9WgXc") = inr false /\
  is_valid_youtube_url (PyStr "https://www.youtube.com/watch?v=dQw4w9WgXc") = inr false /\
  is_valid_youtube_url (PyStr "https://www.youtube.com/watch?v=dQw4w9WgXcQX") = inr true /\
  is_valid_youtube_url (PyStr "https://www.youtube.com/embed/dQw4w9WgXc") = inr true.
Proof.
  assert (Hbe : host_prefix "https://youtu.be/").
  { exists "https://", "", "youtu", "be". simpl. auto 10. }
  assert (Hcom : host_prefix "https://www.youtube.com/").
  { exists "https://", "www.", "youtube", "com". simpl. auto 10. }
  assert (H10 : token 10 "dQw4w9WgXc").
  { split; [reflexivity | ]. unfold chars. simpl. repeat constructor. }
  assert (H12 : token 12 "dQw4w9WgXcQX").
  { split; [reflexivity | ]. unfold chars. simpl. repeat constructor. }
  split; [ | split; [ | split; [ | split]]].
  - apply (proj1 (proj2 (C3_url_validator_prefix_shape "https://youtu.be/dQw4w9WgXcQ"))).
    reflexivity.
  - apply (proj1 (proj2 (proj2 (proj2 (proj2
             (C3_url_validator_prefix_shape "https://youtu.be/dQw4w9WgXc")))))
             "https://youtu.be/" "dQw4w9WgXc" Hbe H10).
    left. reflexivity.
  - apply (proj1 (proj2 (proj2 (proj2 (proj2
             (C3_url_validator_prefix_shape "https://www.youtube.com/watch?v=dQw4w9WgXc")))))
             "https://www.youtube.com/" "dQw4w9WgXc" Hcom H10).
    right. reflexivity.
  - apply (proj1 (proj2 (proj2 (proj2 (proj2 (proj2
             (C3_url_validator_prefix_shape "https://www.youtube.com/watch?v=dQw4w9WgXcQX"))))))
             "https://www.youtube.com/" "watch?v=" "dQw4w9WgXcQX" 12%nat Hcom).
    + left. simpl. auto.
    + exact H12.
    + lia.
    + reflexivity.
  - apply (proj2 (proj2 (proj2 (proj2 (proj2 (proj2
             (C3_url_validator_prefix_shape "https://www.youtube.com/embed/dQw4w9WgXc"))))))
             "https://www.youtube.com/" "embed/" "dQw4w9WgXc" Hcom).
    + simpl. auto.
    + exact H10.
    + reflexivity.
Defined.
